(** * wb_orders_sync.py: incremental mirror of upstream orders into a sink table

    A shallow embedding of [src/wb_orders_sync.py] and proofs about its
    cursor management, retry loop, record transformer and reload sequence.

    Layout: Python values and exceptions; the proleptic Gregorian calendar of
    [datetime]; time zones ([timezone.utc], fixed offsets, [ZoneInfo]);
    ISO-8601 parsing and printing; the HTTP world; the functions of the
    source file in source order; then the lemmas and theorems. *)

From Stdlib Require Import ZArith QArith.QArith_base String Ascii Lia Bool.
From stdpp Require Import gmap strings list fin_maps.

Local Open Scope string_scope.
Local Open Scope Z_scope.

(** ** Exceptions and fallible computations *)

Inductive exn :=
| KeyError (key : string)
| ValueError
| TypeError
| OverflowError
| HTTPError (status : Z)
| RequestException.

Inductive result (A : Type) :=
| Ok (a : A)
| Raise (e : exn).
Arguments Ok {A} a.
Arguments Raise {A} e.

#[global] Instance result_ret : MRet result := fun A a => Ok a.
#[global] Instance result_bind : MBind result := fun A B f m =>
  match m with
  | Ok a => f a
  | Raise e => Raise e
  end.
#[global] Instance result_fmap : FMap result := fun A B f m =>
  match m with
  | Ok a => Ok (f a)
  | Raise e => Raise e
  end.

Definition or_raise {A} (e : exn) (o : option A) : result A :=
  match o with
  | Some a => Ok a
  | None => Raise e
  end.

(** ** Python values carried by JSON records

    The upstream record is a flat object: its fields are JSON scalars.
    Non-integral numbers are idealised as rationals; only their truth value
    and equality are ever consulted. *)

Inductive pyval :=
| PNone
| PBool (b : bool)
| PInt (z : Z)
| PFloat (q : Q)
| PStr (s : string).

(** [bool(v)] *)
Definition truthy (v : pyval) : bool :=
  match v with
  | PNone => false
  | PBool b => b
  | PInt z => negb (z =? 0)
  | PFloat q => negb (Qeq_bool q 0)
  | PStr s => negb (String.eqb s "")
  end.

Definition num_val (v : pyval) : option Q :=
  match v with
  | PBool b => Some (inject_Z (if b then 1 else 0))
  | PInt z => Some (inject_Z z)
  | PFloat q => Some q
  | _ => None
  end.

(** [a == b] *)
Definition py_eq (a b : pyval) : bool :=
  match a, b with
  | PNone, PNone => true
  | PStr s, PStr t => String.eqb s t
  | _, _ =>
      match num_val a, num_val b with
      | Some x, Some y => Qeq_bool x y
      | _, _ => false
      end
  end.

(** A JSON object / Python [dict] with string keys. *)
Abbreviation record := (gmap string pyval).

(** [o.get(key)] *)
Definition dict_get (o : record) (key : string) : pyval :=
  default PNone (o !! key).

(** [o[key]] *)
Definition dict_item (o : record) (key : string) : result pyval :=
  or_raise (KeyError key) (o !! key).

(** ** The proleptic Gregorian calendar, as in [datetime] *)

Module Calendar.

Definition is_leap (year : Z) : bool :=
  (year mod 4 =? 0) && (negb (year mod 100 =? 0) || (year mod 400 =? 0)).

Definition days_before_year (year : Z) : Z :=
  let y := year - 1 in y * 365 + y / 4 - y / 100 + y / 400.

Definition days_in_month (year month : Z) : Z :=
  if month =? 2 then (if is_leap year then 29 else 28)
  else if (month =? 4) || (month =? 6) || (month =? 9) || (month =? 11) then 30
  else 31.

(** [_DAYS_BEFORE_MONTH] *)
Definition days_before_month_common (month : Z) : Z :=
  if month =? 1 then 0 else if month =? 2 then 31 else if month =? 3 then 59
  else if month =? 4 then 90 else if month =? 5 then 120 else if month =? 6 then 151
  else if month =? 7 then 181 else if month =? 8 then 212 else if month =? 9 then 243
  else if month =? 10 then 273 else if month =? 11 then 304 else 334.

Definition days_before_month (year month : Z) : Z :=
  days_before_month_common month + (if (2 <? month) && is_leap year then 1 else 0).

Definition ymd2ord (year month day : Z) : Z :=
  days_before_year year + days_before_month year month + day.

Definition DI400Y : Z := 146097.
Definition DI100Y : Z := 36524.
Definition DI4Y : Z := 1461.

(** The tail of [_ord2ymd]: the 0-based day of the year to month and day. *)
Definition month_day (leapyear : bool) (n : Z) : Z * Z :=
  let month := Z.shiftr (n + 50) 5 in
  let preceding := days_before_month_common month
                   + (if (2 <? month) && leapyear then 1 else 0) in
  if n <? preceding then
    let month' := month - 1 in
    let preceding' := preceding
        - ((if month' =? 2 then 28
            else if (month' =? 4) || (month' =? 6) || (month' =? 9) || (month' =? 11)
                 then 30 else 31)
           + (if (month' =? 2) && leapyear then 1 else 0)) in
    (month', n - preceding' + 1)
  else (month, n - preceding + 1).

Definition ord2ymd (ordinal : Z) : Z * Z * Z :=
  let n := ordinal - 1 in
  let n400 := n / DI400Y in let n := n mod DI400Y in
  let n100 := n / DI100Y in let n := n mod DI100Y in
  let n4 := n / DI4Y in let n := n mod DI4Y in
  let n1 := n / 365 in let n := n mod 365 in
  let year := n400 * 400 + 1 + n100 * 100 + n4 * 4 + n1 in
  if (n1 =? 4) || (n100 =? 4) then (year - 1, 12, 31)
  else
    let leapyear := (n1 =? 3) && (negb (n4 =? 24) || (n100 =? 3)) in
    let '(month, day) := month_day leapyear n in
    (year, month, day).

Definition valid_date (y m d : Z) : bool :=
  (1 <=? y) && (y <=? 9999) && (1 <=? m) && (m <=? 12)
  && (1 <=? d) && (d <=? days_in_month y m).

Definition valid_time (hh mm ss us : Z) : bool :=
  (0 <=? hh) && (hh <=? 23) && (0 <=? mm) && (mm <=? 59)
  && (0 <=? ss) && (ss <=? 59) && (0 <=? us) && (us <=? 999999).

End Calendar.
Export Calendar.

(** ** Time zones

    A [ZoneInfo] is its TZif transition table: the offset in force before the
    first transition and, in ascending order, each transition instant (Unix
    seconds) with the offset in force from that instant on. *)

Record zoneinfo := {
  tti_before : Z;
  transitions : list (Z * Z);
}.

Inductive tzinfo :=
| FixedOffset (utcoff : Z)
| Zone (z : zoneinfo).

(** [timezone.utc] *)
Definition utc : tzinfo := FixedOffset 0.

(** Offset in force at a UTC instant ([ZoneInfo.fromutc]): that of the last
    transition at or before it. *)
Fixpoint offset_at_utc (cur : Z) (trans : list (Z * Z)) (ts : Z) : Z :=
  match trans with
  | [] => cur
  | (u, off) :: rest => if ts <? u then cur else offset_at_utc off rest ts
  end.

(** Offset for a wall-clock reading with [fold=0] ([ZoneInfo.utcoffset]):
    transition [i] applies from local time [u_i + max(before_i, after_i)]
    on, so a skipped reading keeps the earlier offset and a repeated one is
    read as its first occurrence. *)
Fixpoint offset_at_wall (cur : Z) (trans : list (Z * Z)) (ts : Z) : Z :=
  match trans with
  | [] => cur
  | (u, off) :: rest =>
      if ts <? u + Z.max cur off then cur else offset_at_wall off rest ts
  end.

(** Does the wall-clock reading fall in an interval skipped by a forward
    clock change? *)
Fixpoint in_gap (cur : Z) (trans : list (Z * Z)) (ts : Z) : bool :=
  match trans with
  | [] => false
  | (u, off) :: rest =>
      ((u + cur <=? ts) && (ts <? u + off)) || in_gap off rest ts
  end.

Fixpoint ascending (lo : Z) (trans : list (Z * Z)) : bool :=
  match trans with
  | [] => true
  | (u, _) :: rest => (lo <=? u) && ascending u rest
  end.

(** The transition table of [Europe/Moscow] (tzdata): local mean time until
    1880, Moscow mean time, the decree-time and summer-time changes of
    1917-1930 and 1981-2010, UTC+4 from 2011-03-27 and UTC+3 from
    2014-10-26 on. *)
Definition Europe_Moscow : zoneinfo := {|
  tti_before := 9017;
  transitions := [
    (-2840149817, 9017); (-1688265017, 9079); (-1656819079, 12679);
    (-1641353479, 9079); (-1627965079, 16279); (-1618716679, 12679);
    (-1596429079, 16279); (-1593820800, 14400); (-1589860800, 10800);
    (-1542427200, 14400); (-1539493200, 18000); (-1525323600, 14400);
    (-1522728000, 10800); (-1491188400, 7200); (-1247536800, 10800);
    (354920400, 14400); (370728000, 10800); (386456400, 14400);
    (402264000, 10800); (417992400, 14400); (433800000, 10800);
    (449614800, 14400); (465346800, 10800); (481071600, 14400);
    (496796400, 10800); (512521200, 14400); (528246000, 10800);
    (543970800, 14400); (559695600, 10800); (575420400, 14400);
    (591145200, 10800); (606870000, 14400); (622594800, 10800);
    (638319600, 14400); (654649200, 10800); (670374000, 10800);
    (686102400, 7200); (695779200, 10800); (701823600, 14400);
    (717548400, 10800); (733273200, 14400); (748998000, 10800);
    (764722800, 14400); (780447600, 10800); (796172400, 14400);
    (811897200, 10800); (828226800, 14400); (846370800, 10800);
    (859676400, 14400); (877820400, 10800); (891126000, 14400);
    (909270000, 10800); (922575600, 14400); (941324400, 10800);
    (954025200, 14400); (972774000, 10800); (985474800, 14400);
    (1004223600, 10800); (1017529200, 14400); (1035673200, 10800);
    (1048978800, 14400); (1067122800, 10800); (1080428400, 14400);
    (1099177200, 10800); (1111878000, 14400); (1130626800, 10800);
    (1143327600, 14400); (1162076400, 10800); (1174777200, 14400);
    (1193526000, 10800); (1206831600, 14400); (1224975600, 10800);
    (1238281200, 14400); (1256425200, 10800); (1269730800, 14400);
    (1288479600, 10800); (1301180400, 14400); (1414274400, 10800)
  ];
|}.

(** [MSK = ZoneInfo("Europe/Moscow")] *)
Definition MSK : tzinfo := Zone Europe_Moscow.

(** ** [datetime]

    A [datetime] is a reading of the proleptic Gregorian wall clock, counted
    in whole seconds since 0001-01-01T00:00:00 plus a microsecond part,
    together with its [tzinfo] ([None] for a naive value). The program only
    consults [utcoffset] on values built with [fold=0], so [fold] is left
    out. *)

Record datetime := mkdt {
  dt_secs : Z;
  dt_micro : Z;
  dt_tzinfo : option tzinfo;
}.

(** Seconds from 0001-01-01 to the Unix epoch. *)
Definition EPOCH_SECS : Z := 62135596800.
(** One past 9999-12-31T23:59:59. *)
Definition MAX_SECS : Z := 315537897600.

Definition in_range (secs : Z) : bool := (0 <=? secs) && (secs <? MAX_SECS).

(** [datetime(year, month, day, hour, minute, second, microsecond, tzinfo)] *)
Definition datetime_new (y m d hh mm ss us : Z) (tz : option tzinfo)
  : result datetime :=
  if valid_date y m d && valid_time hh mm ss us
  then Ok (mkdt ((ymd2ord y m d - 1) * 86400 + hh * 3600 + mm * 60 + ss) us tz)
  else Raise ValueError.

(** The fields [(year, month, day, hour, minute, second)] of a value. *)
Definition civil (dt : datetime) : Z * Z * Z * Z * Z * Z :=
  let days := dt_secs dt / 86400 in
  let sod := dt_secs dt mod 86400 in
  let '(y, m, d) := ord2ymd (days + 1) in
  (y, m, d, sod / 3600, (sod / 60) mod 60, sod mod 60).

(** [dt.utcoffset()], in seconds. *)
Definition utcoffset (dt : datetime) : option Z :=
  match dt_tzinfo dt with
  | None => None
  | Some (FixedOffset o) => Some o
  | Some (Zone z) =>
      Some (offset_at_wall (tti_before z) (transitions z) (dt_secs dt - EPOCH_SECS))
  end.

(** [timedelta(seconds=n)]: at most 999999999 days either way. *)
Definition timedelta (seconds : Z) : result Z :=
  if (-999999999 <=? seconds / 86400) && (seconds / 86400 <=? 999999999)
  then Ok seconds else Raise OverflowError.

(** [dt + delta]: wall-clock arithmetic, the [tzinfo] is kept. *)
Definition datetime_add (dt : datetime) (delta : Z) : result datetime :=
  if in_range (dt_secs dt + delta)
  then Ok (mkdt (dt_secs dt + delta) (dt_micro dt) (dt_tzinfo dt))
  else Raise OverflowError.

(** Offset that a zone applies to a UTC reading ([tz.fromutc]). *)
Definition fromutc_offset (tz : tzinfo) (utc_secs : Z) : Z :=
  match tz with
  | FixedOffset o => o
  | Zone z => offset_at_utc (tti_before z) (transitions z) (utc_secs - EPOCH_SECS)
  end.

(** [dt.astimezone(tz)]. A naive value is read in the host's local zone,
    whose offset is [local_utcoff]. *)
Definition astimezone (local_utcoff : Z) (dt : datetime) (tz : tzinfo)
  : result datetime :=
  let offset := match utcoffset dt with Some o => o | None => local_utcoff end in
  let utc_secs := dt_secs dt - offset in
  if in_range utc_secs then
    let local_secs := utc_secs + fromutc_offset tz utc_secs in
    if in_range local_secs
    then Ok (mkdt local_secs (dt_micro dt) (Some tz))
    else Raise OverflowError
  else Raise OverflowError.

(** The absolute instant of an aware value: UTC seconds and microseconds. *)
Definition instant (dt : datetime) : option (Z * Z) :=
  o ← utcoffset dt; Some (dt_secs dt - o, dt_micro dt).

(** ** Printing and parsing ISO-8601 text *)

Definition digit_char (d : Z) : ascii := ascii_of_N (Z.to_N (48 + d)).

Definition digit_val (c : ascii) : option Z :=
  let n := Z.of_N (N_of_ascii c) in
  if (48 <=? n) && (n <=? 57) then Some (n - 48) else None.

(** The [width] low-order decimal digits of [n], most significant first
    (["%04d"], ["%02d"], ["%06d"] on values that fit). *)
Fixpoint zfill (width : nat) (n : Z) : string :=
  match width with
  | O => ""
  | S w => String (digit_char ((n / 10 ^ Z.of_nat w) mod 10)) (zfill w n)
  end.

(** Read exactly [k] decimal digits. *)
Fixpoint take_digits (k : nat) (acc : Z) (s : string) : option (Z * string) :=
  match k with
  | O => Some (acc, s)
  | S k' =>
      match s with
      | String c s' => d ← digit_val c; take_digits k' (acc * 10 + d) s'
      | EmptyString => None
      end
  end.

Definition expect (c : ascii) (s : string) : option string :=
  match s with
  | String c' s' => if Ascii.eqb c c' then Some s' else None
  | EmptyString => None
  end.

(** The leading run of decimal digits of [s] and what follows it. *)
Fixpoint span_digits (s : string) : list Z * string :=
  match s with
  | String c s' =>
      match digit_val c with
      | Some d => let '(ds, rest) := span_digits s' in (d :: ds, rest)
      | None => ([], s)
      end
  | EmptyString => ([], s)
  end.

(** [int(us_str) * 10**(6 - len(us_str))] for the first six fraction digits. *)
Definition micro_of_digits (ds : list Z) : Z :=
  let ds6 := take 6 ds in
  foldl (fun acc d => acc * 10 + d) 0 ds6 * 10 ^ Z.of_nat (6 - length ds6).

(** ["%Y-%m-%dT%H:%M:%S"]. The year is printed on four digits, as the
    language reference has it; C libraries differ below the year 1000. *)
Definition strftime_wb (dt : datetime) : string :=
  let '(y, m, d, hh, mm, ss) := civil dt in
  zfill 4 y +:+ "-" +:+ zfill 2 m +:+ "-" +:+ zfill 2 d +:+ "T"
  +:+ zfill 2 hh +:+ ":" +:+ zfill 2 mm +:+ ":" +:+ zfill 2 ss.

(** The [+HH:MM[:SS]] suffix of [isoformat]. *)
Definition format_offset (off : Z) : string :=
  let a := Z.abs off in
  (if off <? 0 then "-" else "+") +:+ zfill 2 (a / 3600) +:+ ":"
  +:+ zfill 2 ((a / 60) mod 60)
  +:+ (if a mod 60 =? 0 then "" else ":" +:+ zfill 2 (a mod 60)).

(** [dt.isoformat()] *)
Definition isoformat (dt : datetime) : string :=
  strftime_wb dt
  +:+ (if dt_micro dt =? 0 then "" else "." +:+ zfill 6 (dt_micro dt))
  +:+ (match utcoffset dt with
       | Some off => format_offset off
       | None => ""
       end).

(** The calendar date [YYYY-MM-DD] at the head of a string. *)
Definition parse_isodate (s : string) : option (Z * Z * Z * string) :=
  '(y, s) ← take_digits 4 0 s;
  s ← expect "-" s;
  '(m, s) ← take_digits 2 0 s;
  s ← expect "-" s;
  '(d, s) ← take_digits 2 0 s;
  Some (y, m, d, s).

(** A zone designator: empty, [Z], or [+-HH], [+-HHMM], [+-HH:MM]; a zero
    offset is UTC. *)
Definition parse_tzstr (s : string) : option (option tzinfo) :=
  match s with
  | "" => Some None
  | "Z" | "z" => Some (Some utc)
  | String sign s1 =>
      mult ← (if Ascii.eqb sign "+" then Some 1
              else if Ascii.eqb sign "-" then Some (-1) else None);
      '(hh, s2) ← take_digits 2 0 s1;
      mm ← match s2 with
           | "" => Some 0
           | String ":" s3 =>
               '(mm, s4) ← take_digits 2 0 s3;
               if String.eqb s4 "" then Some mm else None
           | _ =>
               '(mm, s4) ← take_digits 2 0 s2;
               if String.eqb s4 "" then Some mm else None
           end;
      if (hh =? 0) && (mm =? 0) then Some (Some utc)
      else if (mm <=? 59) && (hh <=? 23)
           then Some (Some (FixedOffset (mult * (hh * 60 + mm) * 60)))
           else None
  end.

Definition is_tz_start (s : string) : bool :=
  match s with
  | String c _ =>
      Ascii.eqb c "-" || Ascii.eqb c "+" || Ascii.eqb c "Z" || Ascii.eqb c "z"
  | EmptyString => true
  end.

(** The time of day [HH[:MM[:SS[.ffffff]]]] with its zone designator; the
    whole string has to be used up. *)
Definition parse_isotime (s : string) : option (Z * Z * Z * Z * option tzinfo) :=
  '(hh, s) ← take_digits 2 0 s;
  if is_tz_start s then tz ← parse_tzstr s; Some (hh, 0, 0, 0, tz) else
  s ← expect ":" s;
  '(mm, s) ← take_digits 2 0 s;
  if is_tz_start s then tz ← parse_tzstr s; Some (hh, mm, 0, 0, tz) else
  s ← expect ":" s;
  '(ss, s) ← take_digits 2 0 s;
  match s with
  | String c s' =>
      if Ascii.eqb c "." || Ascii.eqb c "," then
        let '(ds, rest) := span_digits s' in
        match ds with
        | [] => None
        | _ => tz ← parse_tzstr rest; Some (hh, mm, ss, micro_of_digits ds, tz)
        end
      else tz ← parse_tzstr s; Some (hh, mm, ss, 0, tz)
  | EmptyString => Some (hh, mm, ss, 0, None)
  end.

(** [dateutil.parser.isoparse] on the extended date-time format
    [YYYY-MM-DD[<sep>HH[:MM[:SS[.f]]][zone]]]: any single character
    separates date and time, [24:00] is the next midnight. The basic
    (undelimited), week and ordinal forms that the library also reads are
    outside this embedding and are reported as [ValueError]. *)
Definition isoparse_str (s : string) : result datetime :=
  match parse_isodate s with
  | None => Raise ValueError
  | Some (y, m, d, rest) =>
      match rest with
      | "" => datetime_new y m d 0 0 0 0 None
      | String _ timestr =>
          match parse_isotime timestr with
          | None => Raise ValueError
          | Some (hh, mm, ss, us, tz) =>
              if hh =? 24 then
                if (mm =? 0) && (ss =? 0) && (us =? 0)
                then dt ← datetime_new y m d 0 0 0 0 tz; datetime_add dt 86400
                else Raise ValueError
              else datetime_new y m d hh mm ss us tz
          end
      end
  end.

(** [isoparse(v)] on a Python value: only text is parsed. *)
Definition isoparse (v : pyval) : result datetime :=
  match v with
  | PStr s => isoparse_str s
  | _ => Raise TypeError
  end.

(** [datetime.fromisoformat(s).date()]: the same date-time format without
    the [24:00] and [Z] spellings. *)
Definition fromisoformat_date (s : string) : result (Z * Z * Z) :=
  match parse_isodate s with
  | None => Raise ValueError
  | Some (y, m, d, rest) =>
      match rest with
      | "" => _ ← datetime_new y m d 0 0 0 0 None; Ok (y, m, d)
      | String _ timestr =>
          match parse_isotime timestr with
          | None => Raise ValueError
          | Some (hh, mm, ss, us, tz) =>
              _ ← datetime_new y m d hh mm ss us tz; Ok (y, m, d)
          end
      end
  end.

(** ** The HTTP world

    Every request the program makes and every pause it takes is recorded, in
    order, in a trace. What a request returns is decided by the world, which
    sees the whole trace up to and including that request. Log lines are not
    modelled. *)

Inductive json_body :=
| JsonList (items : list record)
| JsonOther (truth : bool).

Inductive http_result :=
| Response (status : Z) (body : json_body)
| ConnectionFailed.

Inductive event :=
| WbGet (date_from : pyval) (flag : Z)
| SinkSelect (params : list (string * string))
| SinkDelete (params : list (string * string))
| SinkUpsert (batch : list record)
| Sleep (seconds : Z).

Abbreviation trace := (list event).

(** Effectful computations: the trace is threaded through and survives an
    exception. *)
Definition M (A : Type) : Type := trace → trace * result A.

#[global] Instance M_ret : MRet M := fun A a tr => (tr, Ok a).
#[global] Instance M_bind : MBind M := fun A B f m tr =>
  match m tr with
  | (tr', Ok a) => f a tr'
  | (tr', Raise e) => (tr', Raise e)
  end.

Definition lift {A} (r : result A) : M A := fun tr => (tr, r).

Definition emit (ev : event) : M unit := fun tr => ((tr ++ [ev])%list, Ok tt).

(** [r.raise_for_status()] then [r.json()] *)
Definition raise_for_status (r : http_result) : result json_body :=
  match r with
  | Response status body =>
      if (400 <=? status) && (status <? 600) then Raise (HTTPError status)
      else Ok body
  | ConnectionFailed => Raise RequestException
  end.

(** [time.sleep(seconds)] *)
Definition sleep (seconds : Z) : M unit :=
  if seconds <? 0 then lift (Raise ValueError) else emit (Sleep seconds).

(** ** Process configuration (module-level constants of the source) *)

Record config := {
  RELOAD_DAY : option string;
  OVERLAP_MINUTES : Z;
  BATCH_SIZE : Z;
  WB_SLEEP_SECONDS : Z;
  (** UTC offset of the host's local zone, which [astimezone] applies to
      naive values. *)
  LOCAL_UTCOFFSET : Z;
}.

Definition SENTINEL_CANCEL_DATE : string := "0001-01-01T00:00:00".

(** Pagination state of the incremental loop. *)
Record pagination := {
  cursor : pyval;
  prev_cursor : pyval;
  pages : Z;
}.

Inductive stop_reason := EmptyPage | NoLastChangeDate.

Inductive page_outcome :=
| Break (why : stop_reason)
| NextPage (st : pagination).

Inductive loop_end :=
| Done (why : stop_reason)
| OutOfFuel.

Section Sync.

Context (cfg : config) (net : trace → http_result).

(** One HTTP request: record it, let the world answer. *)
Definition http (ev : event) : M http_result :=
  fun tr => ((tr ++ [ev])%list, Ok (net (tr ++ [ev])%list)).

(** *** Time helpers *)

Definition parse_wb_dt_to_utc (dt_str : pyval) : result datetime :=
  dt ← isoparse dt_str;
  let dt := match dt_tzinfo dt with
            | None => mkdt (dt_secs dt) (dt_micro dt) (Some MSK)
            | Some _ => dt
            end in
  astimezone (LOCAL_UTCOFFSET cfg) dt utc.

Definition format_dt_for_wb (date_utc : datetime) : result string :=
  dt_msk ← astimezone (LOCAL_UTCOFFSET cfg) date_utc MSK;
  Ok (strftime_wb dt_msk).

(** *** WB request with retries *)

(** The body of [for attempt in range(1, max_retries + 1)], with
    [remaining] iterations left. *)
Fixpoint wb_attempts (date_from : pyval) (flag : Z) (attempt : Z)
    (remaining : nat) : M (list record) :=
  match remaining with
  | O => mret []
  | S k =>
      r ← http (WbGet date_from flag);
      match r with
      | Response status body =>
          if status =? 200 then
            mret (match body with JsonList data => data | JsonOther _ => [] end)
          else if status =? 429 then
            _ ← sleep (Z.max (WB_SLEEP_SECONDS cfg) 65);
            wb_attempts date_from flag (attempt + 1) k
          else if (500 <=? status) && (status <? 600) then
            _ ← sleep (10 * attempt);
            wb_attempts date_from flag (attempt + 1) k
          else mret []
      | ConnectionFailed =>
          _ ← sleep (10 * attempt);
          wb_attempts date_from flag (attempt + 1) k
      end
  end.

Definition wb_request (date_from : pyval) (flag : Z) (max_retries : Z)
  : M (list record) :=
  wb_attempts date_from flag 1 (Z.to_nat max_retries).

(** *** Supabase helpers *)

Definition get_db_max_last_change_date_utc : M datetime :=
  r ← http (SinkSelect [("select", "last_change_date");
                         ("order", "last_change_date.desc");
                         ("limit", "1")]);
  rows ← lift (raise_for_status r);
  match rows with
  | JsonList [] | JsonOther false =>
      lift (start_msk ← datetime_new 2023 1 1 0 0 0 0 (Some MSK);
            astimezone (LOCAL_UTCOFFSET cfg) start_msk utc)
  | JsonList (row0 :: _) =>
      lift (v ← dict_item row0 "last_change_date";
            dt ← isoparse v;
            astimezone (LOCAL_UTCOFFSET cfg) dt utc)
  | JsonOther true => lift (Raise TypeError)
  end.

(** Lines 144-150: the UTC bounds of one Moscow day. *)
Definition msk_day_window (day_yyyy_mm_dd : string)
  : result (datetime * datetime) :=
  '(y, m, d) ← fromisoformat_date day_yyyy_mm_dd;
  start_msk ← datetime_new y m d 0 0 0 0 (Some MSK);
  end_msk ← (delta ← timedelta 86400; datetime_add start_msk delta);
  start_utc ← astimezone (LOCAL_UTCOFFSET cfg) start_msk utc;
  end_utc ← astimezone (LOCAL_UTCOFFSET cfg) end_msk utc;
  Ok (start_utc, end_utc).

Definition delete_msk_day_from_db (day_yyyy_mm_dd : string) : M unit :=
  '(start_utc, end_utc) ← lift (msk_day_window day_yyyy_mm_dd);
  r ← http (SinkDelete [("date", "gte." +:+ isoformat start_utc);
                         ("date", "lt." +:+ isoformat end_utc)]);
  _ ← lift (raise_for_status r);
  mret tt.

(** [for i in range(0, len(rows), size)]: post [rows[i:i + size]]. *)
Fixpoint upsert_batches (fuel : nat) (size : nat) (rows : list record) : M unit :=
  match fuel, rows with
  | S f, _ :: _ =>
      r ← http (SinkUpsert (take size rows));
      _ ← lift (raise_for_status r);
      upsert_batches f size (drop size rows)
  | _, _ => mret tt
  end.

Definition upsert_orders_to_db (rows : list record) : M unit :=
  match rows with
  | [] => mret tt
  | _ =>
      if BATCH_SIZE cfg =? 0 then lift (Raise ValueError)
      else if BATCH_SIZE cfg <? 0 then mret tt
      else upsert_batches (length rows) (Z.to_nat (BATCH_SIZE cfg)) rows
  end.

(** *** Transform WB -> DB rows *)

(** The body of the [for o in wb_orders] loop. *)
Definition transform_row (o : record) : result record :=
  date_utc ← (v ← dict_item o "date"; isoformat <$> parse_wb_dt_to_utc v);
  lcd_utc ← (v ← dict_item o "lastChangeDate"; isoformat <$> parse_wb_dt_to_utc v);
  let cancel_raw := dict_get o "cancelDate" in
  cancel_utc ←
    (if truthy cancel_raw && negb (py_eq cancel_raw (PStr SENTINEL_CANCEL_DATE))
     then (fun d => PStr (isoformat d)) <$> parse_wb_dt_to_utc cancel_raw
     else Ok PNone);
  Ok (list_to_map [
    ("date", PStr date_utc);
    ("last_change_date", PStr lcd_utc);
    ("warehouse_name", dict_get o "warehouseName");
    ("warehouse_type", dict_get o "warehouseType");
    ("country_name", dict_get o "countryName");
    ("oblast_okrug_name", dict_get o "oblastOkrugName");
    ("region_name", dict_get o "regionName");
    ("supplier_article", dict_get o "supplierArticle");
    ("nm_id", dict_get o "nmId");
    ("barcode", dict_get o "barcode");
    ("category", dict_get o "category");
    ("subject", dict_get o "subject");
    ("brand", dict_get o "brand");
    ("tech_size", dict_get o "techSize");
    ("income_id", dict_get o "incomeID");
    ("is_supply", dict_get o "isSupply");
    ("is_realization", dict_get o "isRealization");
    ("total_price", dict_get o "totalPrice");
    ("discount_percent", dict_get o "discountPercent");
    ("spp", dict_get o "spp");
    ("finished_price", dict_get o "finishedPrice");
    ("price_with_disc", dict_get o "priceWithDisc");
    ("is_cancel", dict_get o "isCancel");
    ("cancel_date", cancel_utc);
    ("sticker", dict_get o "sticker");
    ("g_number", dict_get o "gNumber");
    ("srid", dict_get o "srid")
  ]).

Fixpoint transform_wb_orders (wb_orders : list record) : result (list record) :=
  match wb_orders with
  | [] => Ok []
  | o :: rest =>
      row ← transform_row o;
      out ← transform_wb_orders rest;
      Ok (row :: out)
  end.

(** *** One-day reload (flag=1) *)

Definition full_reload_day_msk (day_yyyy_mm_dd : string) : M unit :=
  _ ← delete_msk_day_from_db day_yyyy_mm_dd;
  wb_data ← wb_request (PStr day_yyyy_mm_dd) 1 6;
  transformed ← lift (transform_wb_orders wb_data);
  upsert_orders_to_db transformed.

(** *** Incremental sync (flag=0) *)

(** Lines 256-258: the fetch start and the first cursor. *)
Definition sync_start (db_max_lcd : datetime) : result (datetime * string) :=
  delta ← timedelta (60 * OVERLAP_MINUTES cfg);
  start_utc ← datetime_add db_max_lcd (- delta);
  cursor ← format_dt_for_wb start_utc;
  Ok (start_utc, cursor).

Definition initial_pagination (cursor : string) : pagination :=
  {| cursor := PStr cursor; prev_cursor := PNone; pages := 0 |}.

(** Lines 285-291: the cursor for the next page. *)
Definition next_cursor (prev_cursor last_row_lcd : pyval) (page_len : nat)
  : result pyval :=
  if py_eq prev_cursor last_row_lcd && (80000 <=? Z.of_nat page_len) then
    dt ← parse_wb_dt_to_utc last_row_lcd;
    bumped ← (delta ← timedelta 1; datetime_add dt delta);
    PStr <$> format_dt_for_wb bumped
  else Ok last_row_lcd.

(** The loop body after the fetch (lines 273-296). *)
Definition process_page (st : pagination) (wb_data : list record)
  : M page_outcome :=
  match last wb_data with
  | None => mret (Break EmptyPage)
  | Some last_row =>
      transformed ← lift (transform_wb_orders wb_data);
      _ ← upsert_orders_to_db transformed;
      let last_row_lcd := dict_get last_row "lastChangeDate" in
      if negb (truthy last_row_lcd) then mret (Break NoLastChangeDate)
      else
        cursor' ← lift (next_cursor (prev_cursor st) last_row_lcd (length wb_data));
        _ ← sleep (WB_SLEEP_SECONDS cfg);
        mret (NextPage {| cursor := cursor';
                          prev_cursor := last_row_lcd;
                          pages := pages st |})
  end.

(** One turn of [while True] (lines 269-296). *)
Definition sync_page (st : pagination) : M page_outcome :=
  let st := {| cursor := cursor st; prev_cursor := prev_cursor st;
               pages := pages st + 1 |} in
  wb_data ← wb_request (cursor st) 0 6;
  process_page st wb_data.

(** [while True] run for at most [fuel] turns. *)
Fixpoint incremental_loop (fuel : nat) (st : pagination) : M loop_end :=
  match fuel with
  | O => mret OutOfFuel
  | S f =>
      r ← sync_page st;
      match r with
      | Break why => mret (Done why)
      | NextPage st' => incremental_loop f st'
      end
  end.

Definition incremental_sync (fuel : nat) : M loop_end :=
  db_max_lcd ← get_db_max_last_change_date_utc;
  '(start_utc, cursor) ← lift (sync_start db_max_lcd);
  incremental_loop fuel (initial_pagination cursor).

Definition main (fuel : nat) : M loop_end :=
  _ ← match RELOAD_DAY cfg with
      | Some day => full_reload_day_msk day
      | None => mret tt
      end;
  incremental_sync fuel.

End Sync.

(** * Lemmas *)

(** ** Calendar: a date survives the trip through its ordinal *)

Ltac eval_tests :=
  cbv beta iota delta [Z.eqb Z.ltb Z.leb Z.compare Pos.compare Pos.compare_cont
                       Pos.eqb orb andb negb].

Ltac eval_tests_in H :=
  cbv beta iota delta [Z.eqb Z.ltb Z.leb Z.compare Pos.compare Pos.compare_cont
                       Pos.eqb orb andb negb] in H.

Ltac eval_closed :=
  repeat match goal with
  | |- context [Z.eqb ?a ?b] =>
      let v := eval vm_compute in (Z.eqb a b) in
      lazymatch v with
      | true => change (Z.eqb a b) with true
      | false => change (Z.eqb a b) with false
      end
  | |- context [Z.ltb ?a ?b] =>
      let v := eval vm_compute in (Z.ltb a b) in
      lazymatch v with
      | true => change (Z.ltb a b) with true
      | false => change (Z.ltb a b) with false
      end
  | |- context [Z.sub (Zpos ?p) 1] =>
      let v := eval vm_compute in (Z.sub (Zpos p) 1) in
      lazymatch v with
      | Zpos _ => change (Z.sub (Zpos p) 1) with v
      | Z0 => change (Z.sub (Zpos p) 1) with v
      end
  end; cbn [orb andb negb]; cbv beta iota.

Ltac euclid := Z.to_euclidean_division_equations; lia.

Lemma month_cases m : 1 <= m <= 12 ->
  m = 1 ∨ m = 2 ∨ m = 3 ∨ m = 4 ∨ m = 5 ∨ m = 6 ∨ m = 7 ∨
  m = 8 ∨ m = 9 ∨ m = 10 ∨ m = 11 ∨ m = 12.
Proof. lia. Qed.

Lemma year_decomp y : 1 <= y ->
  exists a b c d, y - 1 = 400 * a + 100 * b + 4 * c + d /\
    0 <= a /\ 0 <= b < 4 /\ 0 <= c < 25 /\ 0 <= d < 4.
Proof.
  intros Hy.
  exists ((y-1) / 400), ((y-1) mod 400 / 100), ((y-1) mod 400 mod 100 / 4), ((y-1) mod 400 mod 100 mod 4).
  euclid.
Qed.

Lemma is_leap_decomp y a b c e :
  y - 1 = 400 * a + 100 * b + 4 * c + e ->
  0 <= b < 4 -> 0 <= c < 25 -> 0 <= e < 4 ->
  is_leap y = (e =? 3) && (negb (c =? 24) || (b =? 3)).
Proof.
  intros Hdec Hb Hc He. unfold is_leap.
  assert (y mod 4 = (e + 1) mod 4) by euclid.
  assert (y mod 100 = (4 * c + e + 1) mod 100) by euclid.
  assert (y mod 400 = (100 * b + 4 * c + e + 1) mod 400) by euclid.
  destruct (e =? 3) eqn:E1, (c =? 24) eqn:E2, (b =? 3) eqn:E3; simpl; euclid.
Qed.

Lemma days_before_year_decomp y a b c e :
  y - 1 = 400 * a + 100 * b + 4 * c + e ->
  0 <= b < 4 -> 0 <= c < 25 -> 0 <= e < 4 ->
  days_before_year y = 146097 * a + 36524 * b + 1461 * c + 365 * e.
Proof.
  intros Hdec Hb Hc He. unfold days_before_year. cbv zeta. rewrite Hdec. euclid.
Qed.

Lemma month_day_correct (lp : bool) (m d : Z) :
  1 <= m <= 12 ->
  1 <= d <= (if m =? 2 then (if lp then 29 else 28)
             else if (m =? 4) || (m =? 6) || (m =? 9) || (m =? 11) then 30 else 31) ->
  month_day lp (days_before_month_common m + (if (2 <? m) && lp then 1 else 0) + d - 1)
  = (m, d).
Proof.
  intros Hm Hd.
  destruct lp;
  destruct (month_cases m Hm) as [H|[H|[H|[H|[H|[H|[H|[H|[H|[H|[H|H]]]]]]]]]]];
  subst m; unfold days_before_month_common; eval_tests; eval_tests_in Hd;
  unfold month_day; cbv zeta; rewrite Z.shiftr_div_pow2 by lia;
  change (2 ^ 5) with 32;
  match goal with
  | |- context [(?e + 50) / 32] =>
      match goal with
      | |- _ = (?M, _) =>
          let M1 := eval vm_compute in (M + 1) in
          let H := fresh "Hq" in
          assert (H : (e + 50) / 32 = M ∨ (e + 50) / 32 = M1) by euclid;
          destruct H as [H | H]; rewrite H
      end
  end;
  eval_closed; unfold days_before_month_common; eval_closed;
  repeat match goal with
  | |- context [if ?b then _ else _] => destruct b eqn:?
  end; try (f_equal; lia); try lia.
  all: euclid.
Qed.

Lemma ord2ymd_ymd2ord y m d :
  valid_date y m d = true -> ord2ymd (ymd2ord y m d) = (y, m, d).
Proof.
  unfold valid_date. intros H.
  assert (Hy : 1 <= y <= 9999) by lia.
  assert (Hm : 1 <= m <= 12) by lia.
  assert (Hd : 1 <= d <= days_in_month y m) by lia.
  clear H.
  destruct (year_decomp y) as (a & b & c & e & Hdec & Ha & Hb & Hc & He); [lia|].
  pose proof (is_leap_decomp y a b c e Hdec Hb Hc He) as Hleap.
  pose proof (days_before_year_decomp y a b c e Hdec Hb Hc He) as Hdby.
  set (k := days_before_month y m + d - 1).
  assert (Hmd : month_day (is_leap y) k = (m, d)).
  { subst k. unfold days_before_month. apply month_day_correct; [lia|exact Hd]. }
  assert (Hk : 0 <= k <= 364 + (if is_leap y then 1 else 0)).
  { subst k. unfold days_before_month, days_before_month_common, days_in_month in *.
    destruct (is_leap y);
    destruct (month_cases m Hm) as [H|[H|[H|[H|[H|[H|[H|[H|[H|[H|[H|H]]]]]]]]]]];
    subst m; eval_closed; eval_tests_in Hd; lia. }
  assert (Hlast : k = 365 -> m = 12 /\ d = 31).
  { intros Hk365. subst k.
    unfold days_before_month, days_before_month_common, days_in_month in *.
    destruct (is_leap y);
    destruct (month_cases m Hm) as [H|[H|[H|[H|[H|[H|[H|[H|[H|[H|[H|H]]]]]]]]]]];
    subst m; revert Hk365; eval_closed; eval_tests_in Hd; lia. }
  assert (HN : ymd2ord y m d - 1 = 146097 * a + 36524 * b + 1461 * c + 365 * e + k).
  { unfold ymd2ord. rewrite Hdby. subst k. lia. }
  unfold ord2ymd. cbv zeta. rewrite HN. unfold DI400Y, DI100Y, DI4Y.
  clearbody k. clear HN Hdby.
  destruct (Z.eq_dec k 365) as [Hk365 | Hk365].
  - (* last day of a leap year *)
    destruct (Hlast Hk365) as [-> ->].
    assert (Hl : is_leap y = true) by (destruct (is_leap y); [reflexivity | lia]).
    rewrite Hl in Hleap. symmetry in Hleap.
    assert (He3 : e = 3) by lia.
    subst k e.
    set (N := 146097 * a + 36524 * b + 1461 * c + 365 * 3 + 365).
    destruct (Z.eq_dec c 24) as [Hc24 | Hc24].
    + assert (Hb3 : b = 3) by lia. subst b c. subst N.
      assert (E1 : (146097 * a + 36524 * 3 + 1461 * 24 + 365 * 3 + 365) / 146097 = a) by euclid.
      assert (E2 : (146097 * a + 36524 * 3 + 1461 * 24 + 365 * 3 + 365) mod 146097 = 146096) by euclid.
      rewrite E1, E2. change (146096 / 36524) with 4.
      rewrite Z.eqb_refl, orb_true_r. 
      change (146096 mod 36524) with 0. change (0 / 1461) with 0.
      change (0 mod 1461) with 0. change (0 / 365) with 0.
      repeat f_equal; lia.
    + assert (E1 : N / 146097 = a) by (subst N; euclid).
      assert (E2 : N mod 146097 = 36524 * b + 1461 * c + 1460) by (subst N; euclid).
      rewrite E1, E2.
      assert (E3 : (36524 * b + 1461 * c + 1460) / 36524 = b) by euclid.
      assert (E4 : (36524 * b + 1461 * c + 1460) mod 36524 = 1461 * c + 1460) by euclid.
      rewrite E3, E4.
      assert (E5 : (1461 * c + 1460) / 1461 = c) by euclid.
      assert (E6 : (1461 * c + 1460) mod 1461 = 1460) by euclid.
      rewrite E5, E6. change (1460 / 365) with 4. rewrite Z.eqb_refl.
      cbn [orb]. repeat f_equal; lia.
  - assert (Hk' : 0 <= k <= 364) by (destruct (is_leap y); lia).
    set (N := 146097 * a + 36524 * b + 1461 * c + 365 * e + k).
    assert (E1 : N / 146097 = a) by (subst N; euclid).
    assert (E2 : N mod 146097 = 36524 * b + 1461 * c + 365 * e + k) by (subst N; euclid).
    rewrite E1, E2.
    assert (E3 : (36524 * b + 1461 * c + 365 * e + k) / 36524 = b) by euclid.
    assert (E4 : (36524 * b + 1461 * c + 365 * e + k) mod 36524 = 1461 * c + 365 * e + k) by euclid.
    rewrite E3, E4.
    assert (E5 : (1461 * c + 365 * e + k) / 1461 = c) by euclid.
    assert (E6 : (1461 * c + 365 * e + k) mod 1461 = 365 * e + k) by euclid.
    rewrite E5, E6.
    assert (E7 : (365 * e + k) / 365 = e) by euclid.
    assert (E8 : (365 * e + k) mod 365 = k) by euclid.
    rewrite E7, E8.
    assert (Hn1 : (e =? 4) = false) by lia.
    assert (Hn100 : (b =? 4) = false) by lia.
    rewrite Hn1, Hn100. cbn [orb].
    rewrite <- Hleap, Hmd. repeat f_equal; lia.
Qed.

Lemma day_of_year_bounds y m d :
  1 <= m <= 12 -> 1 <= d <= days_in_month y m ->
  1 <= days_before_month y m + d <= 365 + (if is_leap y then 1 else 0).
Proof.
  intros Hm Hd.
  unfold days_before_month, days_before_month_common, days_in_month in *.
  destruct (is_leap y);
  destruct (month_cases m Hm) as [H|[H|[H|[H|[H|[H|[H|[H|[H|[H|[H|H]]]]]]]]]]];
  subst m; eval_closed; eval_tests_in Hd; lia.
Qed.

Lemma ymd2ord_bounds y m d :
  valid_date y m d = true -> 1 <= ymd2ord y m d <= 3652059.
Proof.
  unfold valid_date. intros H.
  assert (Hy : 1 <= y <= 9999) by lia.
  assert (Hm : 1 <= m <= 12) by lia.
  assert (Hd : 1 <= d <= days_in_month y m) by lia.
  pose proof (day_of_year_bounds y m d Hm Hd) as Hk.
  unfold ymd2ord, days_before_year. cbv zeta.
  destruct (Z.eq_dec y 9999) as [-> | Hne].
  - change (is_leap 9999) with false in Hk. euclid.
  - assert (y <= 9998) by lia. destruct (is_leap y); euclid.
Qed.

Lemma days_before_year_mono y1 y2 :
  y1 <= y2 -> days_before_year y1 <= days_before_year y2.
Proof. intros H. unfold days_before_year. cbv zeta. euclid. Qed.

(** ** Time zones: a wall-clock reading that exists maps back to itself *)

Lemma offset_at_wall_bounds lo hi cur l ts :
  lo <= cur <= hi ->
  Forall (fun e : Z * Z => lo <= e.2 <= hi) l ->
  lo <= offset_at_wall cur l ts <= hi.
Proof.
  intros Hc Hl. revert cur Hc.
  induction Hl as [| [u off] rest Hoff _ IH]; intros cur Hc; simpl.
  - exact Hc.
  - destruct (ts <? u + Z.max cur off); [exact Hc | apply IH; exact Hoff].
Qed.

Lemma offset_at_utc_bounds lo hi cur l ts :
  lo <= cur <= hi ->
  Forall (fun e : Z * Z => lo <= e.2 <= hi) l ->
  lo <= offset_at_utc cur l ts <= hi.
Proof.
  intros Hc Hl. revert cur Hc.
  induction Hl as [| [u off] rest Hoff _ IH]; intros cur Hc; simpl.
  - exact Hc.
  - destruct (ts <? u); [exact Hc | apply IH; exact Hoff].
Qed.

(** Past the transition at [u], the UTC reading that a wall-clock reading
    stands for is still at or after [u]. *)
Lemma offset_at_wall_after lo cur l w :
  ascending lo l = true -> lo + cur <= w ->
  lo <= w - offset_at_wall cur l w.
Proof.
  revert lo cur. induction l as [| [u off] rest IH]; intros lo cur Hasc Hw; simpl.
  - lia.
  - simpl in Hasc. apply andb_true_iff in Hasc as [Hlo Hasc].
    destruct (w <? u + Z.max cur off) eqn:E; [lia |].
    specialize (IH u off Hasc). lia.
Qed.

Lemma offset_roundtrip lo cur l w :
  ascending lo l = true ->
  in_gap cur l w = false ->
  offset_at_utc cur l (w - offset_at_wall cur l w) = offset_at_wall cur l w.
Proof.
  revert lo cur. induction l as [| [u off] rest IH]; intros lo cur Hasc Hgap; simpl.
  - reflexivity.
  - simpl in Hasc, Hgap.
    apply andb_true_iff in Hasc as [Hlo Hasc].
    apply orb_false_iff in Hgap as [Hhere Hgap].
    destruct (w <? u + Z.max cur off) eqn:E.
    + assert (Hlt : (w - cur <? u) = true) by lia. rewrite Hlt. reflexivity.
    + pose proof (offset_at_wall_after u off rest w Hasc) as Haft.
      assert (Hge : (w - offset_at_wall off rest w <? u) = false) by lia.
      rewrite Hge. apply (IH u off Hasc Hgap).
Qed.

Definition zone_offsets_within (lo hi : Z) (z : zoneinfo) : bool :=
  (lo <=? tti_before z) && (tti_before z <=? hi)
  && forallb (fun e : Z * Z => (lo <=? e.2) && (e.2 <=? hi)) (transitions z).

Lemma Moscow_offsets : zone_offsets_within 7200 18000 Europe_Moscow = true.
Proof. vm_compute. reflexivity. Qed.

Lemma Moscow_ascending :
  ascending (-2840149817) (transitions Europe_Moscow) = true.
Proof. vm_compute. reflexivity. Qed.

Lemma zone_offsets_within_wall lo hi z ts :
  zone_offsets_within lo hi z = true ->
  lo <= offset_at_wall (tti_before z) (transitions z) ts <= hi.
Proof.
  unfold zone_offsets_within. intros H.
  apply andb_true_iff in H as [H Hall]. apply andb_true_iff in H as [H1 H2].
  apply offset_at_wall_bounds; [lia |].
  apply Forall_forall. intros e He.
  rewrite forallb_forall in Hall. apply list_elem_of_In in He.
  specialize (Hall e He). lia.
Qed.

Lemma zone_offsets_within_utc lo hi z ts :
  zone_offsets_within lo hi z = true ->
  lo <= offset_at_utc (tti_before z) (transitions z) ts <= hi.
Proof.
  unfold zone_offsets_within. intros H.
  apply andb_true_iff in H as [H Hall]. apply andb_true_iff in H as [H1 H2].
  apply offset_at_utc_bounds; [lia |].
  apply Forall_forall. intros e He.
  rewrite forallb_forall in Hall. apply list_elem_of_In in He.
  specialize (Hall e He). lia.
Qed.

(** ** Text: fixed-width decimal fields read back as printed *)

Lemma digit_val_digit_char d :
  0 <= d <= 9 -> digit_val (digit_char d) = Some d.
Proof.
  intros H.
  assert (Hd : d = 0 ∨ d = 1 ∨ d = 2 ∨ d = 3 ∨ d = 4 ∨ d = 5 ∨ d = 6
               ∨ d = 7 ∨ d = 8 ∨ d = 9) by lia.
  repeat (destruct Hd as [-> | Hd]; [reflexivity |]). subst d. reflexivity.
Qed.

Lemma string_app_cons c (s r : string) : String c s +:+ r = String c (s +:+ r).
Proof. reflexivity. Qed.

Lemma string_app_nil (r : string) : "" +:+ r = r.
Proof. reflexivity. Qed.

Lemma take_digits_zfill k acc n rest :
  0 <= n ->
  take_digits k acc (zfill k n +:+ rest)
  = Some (acc * 10 ^ Z.of_nat k + n mod 10 ^ Z.of_nat k, rest).
Proof.
  intros Hn. revert acc. induction k as [| k IH]; intros acc.
  - simpl. rewrite Z.mod_1_r. do 2 f_equal. lia.
  - cbn [zfill]. rewrite string_app_cons. cbn [take_digits].
    rewrite digit_val_digit_char
      by (pose proof (Z.mod_pos_bound (n / 10 ^ Z.of_nat k) 10); lia).
    cbn [mbind option_bind]. rewrite IH. do 2 f_equal.
    rewrite Nat2Z.inj_succ, Z.pow_succ_r by lia.
    assert (Hp : 0 < 10 ^ Z.of_nat k) by (apply Z.pow_pos_nonneg; lia).
    rewrite (Z.mul_comm 10), (Z.rem_mul_r n _ 10) by lia.
    lia.
Qed.

Lemma take_digits_zfill_small k n rest :
  0 <= n < 10 ^ Z.of_nat k ->
  take_digits k 0 (zfill k n +:+ rest) = Some (n, rest).
Proof.
  intros Hn. rewrite take_digits_zfill by lia.
  rewrite Z.mod_small by lia. reflexivity.
Qed.

Lemma string_app_assoc (a b c : string) : (a +:+ b) +:+ c = a +:+ (b +:+ c).
Proof.
  induction a as [| ch a IH]; [reflexivity |].
  rewrite !string_app_cons. f_equal. exact IH.
Qed.

Lemma string_app_nil_r (a : string) : a +:+ "" = a.
Proof.
  induction a as [| ch a IH]; [reflexivity |].
  rewrite string_app_cons. f_equal. exact IH.
Qed.

Lemma parse_isodate_print y m d rest :
  0 <= y < 10000 -> 0 <= m < 100 -> 0 <= d < 100 ->
  parse_isodate (zfill 4 y +:+ "-" +:+ zfill 2 m +:+ "-" +:+ zfill 2 d +:+ rest)
  = Some (y, m, d, rest).
Proof.
  intros Hy Hm Hd. unfold parse_isodate.
  rewrite take_digits_zfill_small by (simpl; lia). cbn [mbind option_bind].
  rewrite string_app_cons, string_app_nil.
  cbn [expect Ascii.eqb Bool.eqb mbind option_bind].
  rewrite take_digits_zfill_small by (simpl; lia). cbn [mbind option_bind].
  rewrite string_app_cons, string_app_nil.
  cbn [expect Ascii.eqb Bool.eqb mbind option_bind].
  rewrite take_digits_zfill_small by (simpl; lia). reflexivity.
Qed.

(** The text of a fraction of a second: a dot and its digits, or nothing. *)
Fixpoint digits_string (ds : list Z) : string :=
  match ds with
  | [] => ""
  | d :: ds' => String (digit_char d) (digits_string ds')
  end.

Definition fraction_string (ds : list Z) : string :=
  match ds with
  | [] => ""
  | _ => "." +:+ digits_string ds
  end.

Definition all_digits (ds : list Z) : bool :=
  forallb (fun d => (0 <=? d) && (d <=? 9)) ds.

Lemma span_digits_string ds :
  all_digits ds = true -> span_digits (digits_string ds) = (ds, "").
Proof.
  induction ds as [| d ds IH]; intros H; simpl in *; [reflexivity |].
  apply andb_true_iff in H as [Hd Hds].
  rewrite digit_val_digit_char by lia. rewrite (IH Hds). reflexivity.
Qed.

Lemma micro_of_digits_bounds ds :
  all_digits ds = true -> 0 <= micro_of_digits ds <= 999999.
Proof.
  intros H. unfold micro_of_digits, all_digits in H |- *.
  destruct ds as [| d1 [| d2 [| d3 [| d4 [| d5 [| d6 rest]]]]]];
    cbn [forallb] in H;
    repeat match goal with
           | H : _ && _ = true |- _ => apply andb_true_iff in H as [? ?]
           end;
    cbn [firstn take foldl length Nat.sub];
    rewrite ?take_0; cbn [foldl length Nat.sub];
    match goal with
    | |- context [10 ^ Z.of_nat ?k] =>
        let v := eval vm_compute in (10 ^ Z.of_nat k) in
        change (10 ^ Z.of_nat k) with v
    end;
    lia.
Qed.

(** The upstream's local date-time text, with an optional fraction. *)
Definition wb_local_string (y m d hh mm ss : Z) (frac : list Z) : string :=
  zfill 4 y +:+ "-" +:+ zfill 2 m +:+ "-" +:+ zfill 2 d +:+ "T"
  +:+ zfill 2 hh +:+ ":" +:+ zfill 2 mm +:+ ":" +:+ zfill 2 ss
  +:+ fraction_string frac.

(** The wall-clock reading of civil fields, in seconds since 0001-01-01. *)
Definition wall_secs (y m d hh mm ss : Z) : Z :=
  (ymd2ord y m d - 1) * 86400 + hh * 3600 + mm * 60 + ss.

Lemma parse_tzstr_empty : parse_tzstr "" = Some None.
Proof. reflexivity. Qed.

Lemma parse_isotime_print hh mm ss frac :
  0 <= hh < 100 -> 0 <= mm < 100 -> 0 <= ss < 100 ->
  all_digits frac = true ->
  parse_isotime (zfill 2 hh +:+ ":" +:+ zfill 2 mm +:+ ":" +:+ zfill 2 ss
                 +:+ fraction_string frac)
  = Some (hh, mm, ss, micro_of_digits frac, None).
Proof.
  intros Hh Hm Hs Hf. unfold parse_isotime.
  rewrite take_digits_zfill_small by (simpl; lia). cbn [mbind option_bind].
  rewrite string_app_cons, string_app_nil.
  cbn [is_tz_start expect Ascii.eqb Bool.eqb orb mbind option_bind].
  rewrite take_digits_zfill_small by (simpl; lia). cbn [mbind option_bind].
  rewrite string_app_cons, string_app_nil.
  cbn [is_tz_start expect Ascii.eqb Bool.eqb orb mbind option_bind].
  rewrite take_digits_zfill_small by (simpl; lia). cbn [mbind option_bind].
  destruct frac as [| f frac'].
  - reflexivity.
  - unfold fraction_string. rewrite string_app_cons, string_app_nil.
    cbn [Ascii.eqb Bool.eqb orb].
    rewrite (span_digits_string _ Hf). reflexivity.
Qed.

Lemma isoparse_str_print y m d hh mm ss frac :
  valid_date y m d = true -> valid_time hh mm ss 0 = true ->
  all_digits frac = true ->
  isoparse_str (wb_local_string y m d hh mm ss frac)
  = Ok (mkdt (wall_secs y m d hh mm ss) (micro_of_digits frac) None).
Proof.
  intros Hd Ht Hf.
  pose proof (micro_of_digits_bounds frac Hf) as Hus.
  assert (Hd' := Hd). unfold valid_date in Hd'.
  assert (Hdim : days_in_month y m <= 31).
  { unfold days_in_month.
    repeat match goal with |- context [if ?b then _ else _] => destruct b end; lia. }
  assert (Ht' := Ht). unfold valid_time in Ht'.
  unfold isoparse_str, wb_local_string.
  rewrite parse_isodate_print by lia.
  rewrite string_app_cons, string_app_nil.
  rewrite parse_isotime_print by (try lia; exact Hf).
  assert (H24 : (hh =? 24) = false) by lia. rewrite H24.
  unfold datetime_new. rewrite Hd.
  assert (Hvt : valid_time hh mm ss (micro_of_digits frac) = true)
    by (unfold valid_time; lia).
  rewrite Hvt. reflexivity.
Qed.

Lemma civil_wall_secs y m d hh mm ss us tz :
  valid_date y m d = true -> valid_time hh mm ss 0 = true ->
  civil (mkdt (wall_secs y m d hh mm ss) us tz) = (y, m, d, hh, mm, ss).
Proof.
  intros Hd Ht. unfold valid_time in Ht.
  unfold civil, wall_secs. cbn [dt_secs].
  set (o := ymd2ord y m d).
  assert (E1 : ((o - 1) * 86400 + hh * 3600 + mm * 60 + ss) / 86400 = o - 1) by euclid.
  assert (E2 : ((o - 1) * 86400 + hh * 3600 + mm * 60 + ss) mod 86400
               = hh * 3600 + mm * 60 + ss) by euclid.
  rewrite E1, E2. replace (o - 1 + 1) with o by lia. subst o.
  rewrite (ord2ymd_ymd2ord _ _ _ Hd).
  repeat f_equal; euclid.
Qed.

Lemma strftime_wb_print y m d hh mm ss us tz :
  valid_date y m d = true -> valid_time hh mm ss 0 = true ->
  strftime_wb (mkdt (wall_secs y m d hh mm ss) us tz)
  = wb_local_string y m d hh mm ss [].
Proof.
  intros Hd Ht. unfold strftime_wb. rewrite civil_wall_secs by assumption.
  unfold wb_local_string, fraction_string.
  rewrite string_app_nil_r. reflexivity.
Qed.

(** ** Converting between zones *)

Lemma Ok_inj {A} (a b : A) : Ok a = Ok b -> a = b.
Proof. intros [= ->]. reflexivity. Qed.


Lemma astimezone_aware local dt tz off :
  utcoffset dt = Some off ->
  in_range (dt_secs dt - off) = true ->
  in_range (dt_secs dt - off + fromutc_offset tz (dt_secs dt - off)) = true ->
  astimezone local dt tz
  = Ok (mkdt (dt_secs dt - off + fromutc_offset tz (dt_secs dt - off))
             (dt_micro dt) (Some tz)).
Proof.
  intros Ho R1 R2. unfold astimezone. rewrite Ho. cbv zeta.
  rewrite R1, R2. reflexivity.
Qed.

Lemma astimezone_inv local dt tz dt' :
  astimezone local dt tz = Ok dt' ->
  let off := match utcoffset dt with Some o => o | None => local end in
  dt_secs dt' = dt_secs dt - off + fromutc_offset tz (dt_secs dt - off)
  ∧ dt_micro dt' = dt_micro dt ∧ dt_tzinfo dt' = Some tz
  ∧ in_range (dt_secs dt - off) = true ∧ in_range (dt_secs dt') = true.
Proof.
  unfold astimezone. cbv zeta.
  destruct (in_range (dt_secs dt - _)) eqn:R1; [| discriminate].
  destruct (in_range (dt_secs dt - _ + _)) eqn:R2; [| discriminate].
  intros [= <-]. cbn [dt_secs dt_micro dt_tzinfo]. auto.
Qed.

Lemma astimezone_zone_to_utc local secs us z dt' :
  astimezone local (mkdt secs us (Some (Zone z))) utc = Ok dt' ->
  dt' = mkdt (secs - offset_at_wall (tti_before z) (transitions z)
                       (secs - EPOCH_SECS)) us (Some utc).
Proof.
  unfold astimezone, utcoffset. cbn [dt_tzinfo dt_secs dt_micro]. cbv zeta.
  destruct (in_range (secs - _)); [| discriminate].
  unfold utc at 1 2. cbn [fromutc_offset]. rewrite Z.add_0_r.
  destruct (in_range (secs - _)); [| discriminate].
  intros H. apply Ok_inj in H. symmetry. exact H.
Qed.

(** A naive reading is taken as Moscow wall-clock time. *)
Lemma parse_wb_dt_to_utc_naive cfg s secs us off :
  isoparse_str s = Ok (mkdt secs us None) ->
  offset_at_wall (tti_before Europe_Moscow) (transitions Europe_Moscow)
    (secs - EPOCH_SECS) = off ->
  in_range (secs - off) = true ->
  parse_wb_dt_to_utc cfg (PStr s) = Ok (mkdt (secs - off) us (Some utc)).
Proof.
  intros Hp Hoff R. unfold parse_wb_dt_to_utc, isoparse. rewrite Hp.
  cbn [mbind result_bind dt_tzinfo dt_secs dt_micro].
  unfold astimezone, utcoffset, MSK. cbn [dt_tzinfo dt_secs dt_micro].
  rewrite Hoff. cbv zeta. rewrite R.
  change (fromutc_offset utc (secs - off)) with 0.
  rewrite Z.add_0_r, R. reflexivity.
Qed.

Lemma format_dt_for_wb_utc cfg secs us off :
  offset_at_utc (tti_before Europe_Moscow) (transitions Europe_Moscow)
    (secs - EPOCH_SECS) = off ->
  in_range secs = true -> in_range (secs + off) = true ->
  format_dt_for_wb cfg (mkdt secs us (Some utc))
  = Ok (strftime_wb (mkdt (secs + off) us (Some MSK))).
Proof.
  intros Hoff R1 R2. unfold format_dt_for_wb, astimezone, utcoffset, utc.
  cbn [dt_tzinfo dt_secs dt_micro]. cbv zeta. rewrite Z.sub_0_r, R1.
  change (fromutc_offset MSK secs)
    with (offset_at_utc (tti_before Europe_Moscow) (transitions Europe_Moscow)
            (secs - EPOCH_SECS)).
  rewrite Hoff, R2. reflexivity.
Qed.

(** ** C4: the time-zone round trip *)

Definition default_config : config := {|
  RELOAD_DAY := None;
  OVERLAP_MINUTES := 120;
  BATCH_SIZE := 500;
  WB_SLEEP_SECONDS := 65;
  LOCAL_UTCOFFSET := 0;
|}.

(** Is the wall-clock reading [w] (seconds since 0001-01-01) one that a
    forward clock change of Europe/Moscow skipped? *)
Definition skipped_in_moscow (w : Z) : bool :=
  in_gap (tti_before Europe_Moscow) (transitions Europe_Moscow) (w - EPOCH_SECS).

(** [format_dt_for_wb(parse_wb_dt_to_utc(s))] *)
Definition wb_roundtrip (cfg : config) (s : string) : result string :=
  dt ← parse_wb_dt_to_utc cfg (PStr s); format_dt_for_wb cfg dt.

Lemma wall_secs_bounds y m d hh mm ss :
  valid_date y m d = true -> valid_time hh mm ss 0 = true ->
  (days_before_year y) * 86400 <= wall_secs y m d hh mm ss < MAX_SECS.
Proof.
  intros Hd Ht. pose proof (ymd2ord_bounds y m d Hd) as Ho.
  unfold valid_time in Ht. unfold valid_date in Hd.
  assert (Hk : 1 <= days_before_month y m + d).
  { apply day_of_year_bounds; lia. }
  unfold wall_secs, MAX_SECS. unfold ymd2ord in *. lia.
Qed.

Lemma moscow_wall_roundtrip w :
  skipped_in_moscow w = false ->
  offset_at_utc (tti_before Europe_Moscow) (transitions Europe_Moscow)
    (w - offset_at_wall (tti_before Europe_Moscow) (transitions Europe_Moscow)
           (w - EPOCH_SECS) - EPOCH_SECS)
  = offset_at_wall (tti_before Europe_Moscow) (transitions Europe_Moscow)
      (w - EPOCH_SECS).
Proof.
  intros Hgap.
  set (off := offset_at_wall _ _ _).
  replace (w - off - EPOCH_SECS) with (w - EPOCH_SECS - off) by lia.
  subst off. apply (offset_roundtrip _ _ _ _ Moscow_ascending Hgap).
Qed.

(** C4, as the specification words it, fails: 02:30 on 2011-03-27 did not
    occur in Moscow (clocks went from 02:00 to 03:00), and the round trip
    returns 03:30. *)
Lemma timezone_roundtrip_skipped_hour :
  wb_local_string 2011 3 27 2 30 0 [] = "2011-03-27T02:30:00"
  ∧ wb_roundtrip default_config "2011-03-27T02:30:00" = Ok "2011-03-27T03:30:00".
Proof. split; vm_compute; reflexivity. Qed.

Opaque Europe_Moscow.

(** C4 (amended): for every well-formed local date-time text without offset
    ([YYYY-MM-DDTHH:MM:SS] with an optional fraction of a second) of a year
    from 1000 on whose wall-clock reading was not skipped by a forward clock
    change of Europe/Moscow, [parse_wb_dt_to_utc] followed by
    [format_dt_for_wb] returns the text truncated to whole seconds. *)
Theorem timezone_roundtrip cfg y m d hh mm ss frac :
  valid_date y m d = true ->
  valid_time hh mm ss 0 = true ->
  all_digits frac = true ->
  1000 <= y ->
  skipped_in_moscow (wall_secs y m d hh mm ss) = false ->
  wb_roundtrip cfg (wb_local_string y m d hh mm ss frac)
  = Ok (wb_local_string y m d hh mm ss []).
Proof.
  intros Hd Ht Hf Hy Hgap.
  pose proof (wall_secs_bounds y m d hh mm ss Hd Ht) as Hw.
  pose proof (days_before_year_mono 1000 y Hy) as Hmono.
  change (days_before_year 1000) with 364877 in Hmono.
  set (w := wall_secs y m d hh mm ss) in *.
  pose proof (zone_offsets_within_wall _ _ _ (w - EPOCH_SECS) Moscow_offsets) as Hoff.
  pose proof (moscow_wall_roundtrip w Hgap) as Hrt.
  set (off := offset_at_wall (tti_before Europe_Moscow)
                (transitions Europe_Moscow) (w - EPOCH_SECS)) in *.
  assert (R1 : in_range (w - off) = true) by (unfold in_range, MAX_SECS in *; lia).
  assert (R2 : in_range (w - off + off) = true)
    by (unfold in_range, MAX_SECS in *; lia).
  unfold wb_roundtrip.
  rewrite (parse_wb_dt_to_utc_naive cfg _ w (micro_of_digits frac) off
             (isoparse_str_print _ _ _ _ _ _ _ Hd Ht Hf) eq_refl R1).
  clearbody off. cbn [mbind result_bind].
  rewrite (format_dt_for_wb_utc cfg _ _ off Hrt R1 R2).
  replace (w - off + off) with w by lia.
  subst w. rewrite (strftime_wb_print _ _ _ _ _ _ _ _ Hd Ht). reflexivity.
Qed.

Lemma timezone_roundtrip_witness :
  wb_roundtrip default_config (wb_local_string 2024 3 1 10 20 30 [1; 2; 3])
  = Ok (wb_local_string 2024 3 1 10 20 30 []).
Proof.
  apply timezone_roundtrip; vm_compute; first [reflexivity | discriminate].
Defined.

(** ** The record transformer *)

Definition parses (cfg : config) (v : pyval) : bool :=
  match parse_wb_dt_to_utc cfg v with
  | Ok _ => true
  | Raise _ => false
  end.

(** The records that [transform_row] accepts: [date] and [lastChangeDate]
    are present and parse, and so does a [cancelDate] that is set and is not
    the sentinel. *)
Definition wb_order_ok (cfg : config) (o : record) : bool :=
  match o !! "date", o !! "lastChangeDate" with
  | Some dv, Some lv =>
      parses cfg dv && parses cfg lv
      && (let c := dict_get o "cancelDate" in
          if truthy c && negb (py_eq c (PStr SENTINEL_CANCEL_DATE))
          then parses cfg c else true)
  | _, _ => false
  end.

Ltac result_cases :=
  repeat match goal with
  | |- context [mbind _ ?m] =>
      lazymatch type of m with
      | result _ =>
          let E := fresh "E" in
          destruct m eqn:E; cbn [mbind result_bind fmap result_fmap] in *
      end
  | H : context [mbind _ ?m] |- _ =>
      lazymatch type of m with
      | result _ =>
          let E := fresh "E" in
          destruct m eqn:E; cbn [mbind result_bind fmap result_fmap] in *
      end
  end.

Lemma transform_row_ok_iff cfg o :
  wb_order_ok cfg o = true ↔ ∃ row, transform_row cfg o = Ok row.
Proof.
  unfold wb_order_ok, transform_row, dict_item, parses.
  destruct (o !! "date") as [dv |]; cbn [or_raise mbind result_bind];
    [| split; [discriminate | intros [? ?]; discriminate]].
  destruct (parse_wb_dt_to_utc cfg dv) as [ddt | e];
    cbn [fmap result_fmap mbind result_bind andb];
    [| destruct (o !! "lastChangeDate");
       (split; [discriminate | intros [? ?]; discriminate])].
  destruct (o !! "lastChangeDate") as [lv |]; cbn [or_raise mbind result_bind];
    [| split; [discriminate | intros [? ?]; discriminate]].
  destruct (parse_wb_dt_to_utc cfg lv) as [ldt | e];
    cbn [fmap result_fmap mbind result_bind andb];
    [| split; [discriminate | intros [? ?]; discriminate]].
  destruct (truthy _ && negb _); cbn [mbind result_bind].
  - destruct (parse_wb_dt_to_utc cfg (dict_get o "cancelDate"));
      cbn [fmap result_fmap mbind result_bind];
      split; first [discriminate | intros [? ?]; discriminate | eauto].
  - split; eauto.
Qed.

Lemma transform_wb_orders_cons cfg o rest rows :
  transform_wb_orders cfg (o :: rest) = Ok rows ->
  ∃ row out, transform_row cfg o = Ok row
             ∧ transform_wb_orders cfg rest = Ok out ∧ rows = row :: out.
Proof.
  cbn [transform_wb_orders].
  destruct (transform_row cfg o) as [row | e]; cbn [mbind result_bind];
    [| discriminate].
  destruct (transform_wb_orders cfg rest) as [out | e]; cbn [mbind result_bind];
    [| discriminate].
  intros [= <-]. eauto.
Qed.

(** A successful transformation maps the records one to one, in order. *)
Lemma transform_wb_orders_pointwise cfg wb_orders rows :
  transform_wb_orders cfg wb_orders = Ok rows ->
  Forall2 (fun o row => transform_row cfg o = Ok row) wb_orders rows.
Proof.
  revert rows. induction wb_orders as [| o rest IH]; intros rows H.
  - injection H as <-. constructor.
  - apply transform_wb_orders_cons in H as (row & out & Hrow & Hout & ->).
    constructor; [exact Hrow | apply IH; exact Hout].
Qed.

Lemma transform_wb_orders_ok_iff cfg wb_orders :
  forallb (wb_order_ok cfg) wb_orders = true
  ↔ ∃ rows, transform_wb_orders cfg wb_orders = Ok rows.
Proof.
  induction wb_orders as [| o rest IH]; cbn [forallb transform_wb_orders].
  - split; eauto.
  - rewrite andb_true_iff, IH, transform_row_ok_iff. split.
    + intros [[row Hrow] [out Hout]]. rewrite Hrow, Hout.
      cbn [mbind result_bind]. eauto.
    + intros [rows H]. apply transform_wb_orders_cons in H
        as (row & out & Hrow & Hout & _). eauto.
Qed.

(** C5, as the specification words it, fails: a record without [date]
    makes the transformer raise. *)
Lemma transform_raises_on_missing_date :
  transform_wb_orders default_config [ (∅ : record) ] = Raise (KeyError "date").
Proof. reflexivity. Qed.

(** C5 (amended): the transformer is a pure function that neither filters
    nor aggregates; on every list whose records all carry a parseable [date]
    and [lastChangeDate] (and a parseable [cancelDate] where one is set) it
    succeeds with exactly one sink row per record, in the same order. *)
Theorem transform_wb_orders_one_row_each cfg wb_orders :
  forallb (wb_order_ok cfg) wb_orders = true ->
  ∃ rows,
    transform_wb_orders cfg wb_orders = Ok rows
    ∧ length rows = length wb_orders
    ∧ ∀ i o, wb_orders !! i = Some o ->
        ∃ row, rows !! i = Some row ∧ transform_row cfg o = Ok row.
Proof.
  intros Hok. apply transform_wb_orders_ok_iff in Hok as [rows Hrows].
  exists rows. pose proof (transform_wb_orders_pointwise _ _ _ Hrows) as HF.
  split; [exact Hrows |]. split.
  - symmetry. exact (Forall2_length _ _ _ HF).
  - intros i o Hi.
    destruct (Forall2_lookup_l _ _ _ _ _ HF Hi) as (row & Hrow & Ht). eauto.
Qed.

Definition sample_order_a : record := list_to_map [
  ("date", PStr "2024-03-01T10:00:00");
  ("lastChangeDate", PStr "2024-03-01T12:00:00");
  ("cancelDate", PStr "0001-01-01T00:00:00");
  ("isCancel", PBool false);
  ("totalPrice", PInt 1500);
  ("srid", PStr "a1")
].

Definition sample_order_b : record := list_to_map [
  ("date", PStr "2024-03-01T11:30:00");
  ("lastChangeDate", PStr "2024-03-01T12:45:10");
  ("cancelDate", PStr "2024-03-01T12:45:10");
  ("isCancel", PBool true);
  ("srid", PStr "b2")
].

Lemma transform_wb_orders_one_row_each_witness :
  ∃ rows,
    transform_wb_orders default_config [sample_order_a; sample_order_b] = Ok rows
    ∧ length rows = length [sample_order_a; sample_order_b]
    ∧ ∀ i o, [sample_order_a; sample_order_b] !! i = Some o ->
        ∃ row, rows !! i = Some row ∧ transform_row default_config o = Ok row.
Proof.
  apply transform_wb_orders_one_row_each. vm_compute. reflexivity.
Defined.

Lemma sentinel_not_parsed :
  truthy (PStr SENTINEL_CANCEL_DATE)
  && negb (py_eq (PStr SENTINEL_CANCEL_DATE) (PStr SENTINEL_CANCEL_DATE)) = false.
Proof. reflexivity. Qed.

Lemma transform_row_sentinel cfg o row :
  o !! "cancelDate" = Some (PStr SENTINEL_CANCEL_DATE) ->
  transform_row cfg o = Ok row ->
  row !! "cancel_date" = Some PNone.
Proof.
  intros Hc. unfold transform_row. cbv zeta.
  replace (dict_get o "cancelDate") with (PStr SENTINEL_CANCEL_DATE)
    by (unfold dict_get; rewrite Hc; reflexivity).
  rewrite sentinel_not_parsed.
  destruct (dict_item o "date") as [dv | e];
    cbn [mbind result_bind]; [| discriminate].
  destruct (parse_wb_dt_to_utc cfg dv) as [ddt | e];
    cbn [fmap result_fmap mbind result_bind]; [| discriminate].
  destruct (dict_item o "lastChangeDate") as [lv | e];
    cbn [mbind result_bind]; [| discriminate].
  destruct (parse_wb_dt_to_utc cfg lv) as [ldt | e];
    cbn [fmap result_fmap mbind result_bind]; [| discriminate].
  intros H. apply Ok_inj in H. subst row.
  rewrite !list_to_map_cons.
  repeat (rewrite lookup_insert_ne by discriminate).
  apply lookup_insert_eq.
Qed.

(** C6: a record whose [cancelDate] is the sentinel text is transformed to a
    sink row whose [cancel_date] is [None], never an instant. *)
Theorem sentinel_cancel_date cfg wb_orders rows i o :
  transform_wb_orders cfg wb_orders = Ok rows ->
  wb_orders !! i = Some o ->
  o !! "cancelDate" = Some (PStr "0001-01-01T00:00:00") ->
  ∃ row, rows !! i = Some row ∧ row !! "cancel_date" = Some PNone.
Proof.
  intros Hrows Hi Hc.
  pose proof (transform_wb_orders_pointwise _ _ _ Hrows) as HF.
  destruct (Forall2_lookup_l _ _ _ _ _ HF Hi) as (row & Hrow & Ht).
  exists row. split; [exact Hrow |].
  exact (transform_row_sentinel cfg o row Hc Ht).
Qed.

Lemma sentinel_cancel_date_witness :
  ∃ rows row,
    transform_wb_orders default_config [sample_order_b; sample_order_a] = Ok rows
    ∧ rows !! 1%nat = Some row ∧ row !! "cancel_date" = Some PNone.
Proof.
  destruct (proj1 (transform_wb_orders_ok_iff default_config
                     [sample_order_b; sample_order_a]))
    as [rows Hrows]; [vm_compute; reflexivity |].
  destruct (sentinel_cancel_date default_config
              [sample_order_b; sample_order_a] rows 1%nat sample_order_a
              Hrows eq_refl)
    as (row & Hrow & Hnone); [vm_compute; reflexivity |].
  exists rows, row. auto.
Defined.

(** ** Effectful computations *)

Lemma M_bind_unfold {A B} (m : M A) (f : A → M B) tr :
  (m ≫= f) tr
  = match m tr with
    | (tr', Ok a) => f a tr'
    | (tr', Raise e) => (tr', Raise e)
    end.
Proof. reflexivity. Qed.

Lemma M_bind_inv {A B} (m : M A) (f : A → M B) tr tr' r :
  (m ≫= f) tr = (tr', r) ->
  (∃ tr1 a, m tr = (tr1, Ok a) ∧ f a tr1 = (tr', r))
  ∨ (∃ e, m tr = (tr', Raise e) ∧ r = Raise e).
Proof.
  rewrite M_bind_unfold. destruct (m tr) as [tr1 [a | e]].
  - intros H. left. eauto.
  - intros [= <- <-]. right. eauto.
Qed.

Lemma sleep_nonneg s tr : 0 <= s -> sleep s tr = ((tr ++ [Sleep s])%list, Ok tt).
Proof.
  intros H. unfold sleep. assert (E : (s <? 0) = false) by lia.
  rewrite E. reflexivity.
Qed.

(** ** C3: the retry loop under rate limiting *)

(** What the client does across [k] rate-limit answers: the same request,
    each time followed by the rate-limit pause. *)
Fixpoint rate_limited_trace (cfg : config) (date_from : pyval) (flag : Z)
    (k : nat) : list event :=
  match k with
  | O => []
  | S k' =>
      WbGet date_from flag :: Sleep (Z.max (WB_SLEEP_SECONDS cfg) 65)
      :: rate_limited_trace cfg date_from flag k'
  end.

(** The world answers 429 to the next [k] requests of the client. *)
Definition rate_limited (cfg : config) (net : trace → http_result)
    (date_from : pyval) (flag : Z) (tr : trace) (k : nat) : Prop :=
  ∀ j, (j < k)%nat ->
    ∃ body,
      net (tr ++ rate_limited_trace cfg date_from flag j
              ++ [WbGet date_from flag])%list
      = Response 429 body.

Lemma wb_attempts_rate_limited cfg net date_from flag k :
  ∀ remaining attempt tr,
    rate_limited cfg net date_from flag tr k ->
    wb_attempts cfg net date_from flag attempt (k + remaining) tr
    = wb_attempts cfg net date_from flag (attempt + Z.of_nat k) remaining
        (tr ++ rate_limited_trace cfg date_from flag k)%list.
Proof.
  induction k as [| k IH]; intros remaining attempt tr Hrl.
  - cbn [rate_limited_trace Nat.add Z.of_nat]. rewrite app_nil_r, Z.add_0_r.
    reflexivity.
  - destruct (Hrl 0%nat ltac:(lia)) as [body Hb].
    cbn [rate_limited_trace app] in Hb.
    cbn [Nat.add wb_attempts]. rewrite M_bind_unfold. unfold http at 1.
    rewrite Hb. cbn [Z.eqb Pos.eqb]. rewrite M_bind_unfold.
    rewrite sleep_nonneg
      by (pose proof (Z.le_max_r (WB_SLEEP_SECONDS cfg) 65); lia).
    rewrite IH.
    + cbn [rate_limited_trace]. rewrite <- !app_assoc. cbn [app].
      replace (attempt + 1 + Z.of_nat k) with (attempt + Z.of_nat (S k)) by lia.
      reflexivity.
    + intros j Hj. destruct (Hrl (S j) ltac:(lia)) as [body' Hb'].
      exists body'. rewrite <- Hb'. f_equal.
      cbn [rate_limited_trace]. rewrite <- !app_assoc. reflexivity.
Qed.

(** C3, as the specification words it, fails: six rate-limit answers in a
    row exhaust the attempts and the client returns the empty list. *)
Lemma rate_limit_exhaustion_drops_page :
  wb_request default_config (fun _ => Response 429 (JsonOther true))
    (PStr "2024-03-01T10:00:00") 0 6 []
  = ([WbGet (PStr "2024-03-01T10:00:00") 0; Sleep 65;
      WbGet (PStr "2024-03-01T10:00:00") 0; Sleep 65;
      WbGet (PStr "2024-03-01T10:00:00") 0; Sleep 65;
      WbGet (PStr "2024-03-01T10:00:00") 0; Sleep 65;
      WbGet (PStr "2024-03-01T10:00:00") 0; Sleep 65;
      WbGet (PStr "2024-03-01T10:00:00") 0; Sleep 65], Ok []).
Proof. vm_compute. reflexivity. Qed.

(** C3 (amended): on each rate-limit answer the client pauses
    [max(WB_SLEEP_SECONDS, 65)] seconds, at least the rate-limit interval,
    and repeats the same request (same [dateFrom], same [flag]); when the
    answer that follows fewer than [max_retries] rate-limit answers is a 200
    with a list, that list is returned; after [max_retries] rate-limit
    answers in a row the empty list is returned. *)
Theorem rate_limit_retry cfg net date_from flag max_retries tr k :
  (k <= Z.to_nat max_retries)%nat ->
  rate_limited cfg net date_from flag tr k ->
  WB_SLEEP_SECONDS cfg <= Z.max (WB_SLEEP_SECONDS cfg) 65
  ∧ (k = Z.to_nat max_retries ->
     wb_request cfg net date_from flag max_retries tr
     = ((tr ++ rate_limited_trace cfg date_from flag k)%list, Ok []))
  ∧ (∀ data,
       (k < Z.to_nat max_retries)%nat ->
       net (tr ++ rate_limited_trace cfg date_from flag k
               ++ [WbGet date_from flag])%list
       = Response 200 (JsonList data) ->
       wb_request cfg net date_from flag max_retries tr
       = ((tr ++ rate_limited_trace cfg date_from flag k
              ++ [WbGet date_from flag])%list, Ok data)).
Proof.
  intros Hk Hrl. split; [apply Z.le_max_l |]. unfold wb_request. split.
  - intros ->.
    replace (Z.to_nat max_retries) with (Z.to_nat max_retries + 0)%nat at 1 by lia.
    rewrite (wb_attempts_rate_limited _ _ _ _ _ _ _ _ Hrl). reflexivity.
  - intros data Hlt Hok.
    replace (Z.to_nat max_retries)
      with (k + S (Z.to_nat max_retries - k - 1))%nat by lia.
    rewrite (wb_attempts_rate_limited _ _ _ _ _ _ _ _ Hrl).
    cbn [wb_attempts]. rewrite M_bind_unfold. unfold http.
    rewrite <- app_assoc, Hok. reflexivity.
Qed.

(** A world that is rate-limited twice and then serves one page. *)
Definition net_two_429_then_page (tr : trace) : http_result :=
  if (length tr <=? 4)%nat then Response 429 (JsonOther true)
  else Response 200 (JsonList [sample_order_a]).

Lemma rate_limit_retry_witness :
  WB_SLEEP_SECONDS default_config <= Z.max (WB_SLEEP_SECONDS default_config) 65
  ∧ (2%nat = Z.to_nat 6 ->
     wb_request default_config net_two_429_then_page (PStr "2024-03-01T10:00:00") 0 6 []
     = (([] ++ rate_limited_trace default_config (PStr "2024-03-01T10:00:00") 0 2)%list,
        Ok []))
  ∧ (∀ data,
       (2 < Z.to_nat 6)%nat ->
       net_two_429_then_page
         ([] ++ rate_limited_trace default_config (PStr "2024-03-01T10:00:00") 0 2
             ++ [WbGet (PStr "2024-03-01T10:00:00") 0])%list
       = Response 200 (JsonList data) ->
       wb_request default_config net_two_429_then_page (PStr "2024-03-01T10:00:00") 0 6 []
       = (([] ++ rate_limited_trace default_config (PStr "2024-03-01T10:00:00") 0 2
              ++ [WbGet (PStr "2024-03-01T10:00:00") 0])%list, Ok data)).
Proof.
  apply rate_limit_retry.
  - vm_compute. lia.
  - intros j Hj. exists (JsonOther true).
    destruct j as [| [| j]]; [reflexivity | reflexivity | lia].
Defined.

(** ** What each helper adds to the trace *)

Lemma lift_bind_unfold {A B} (r : result A) (f : A → M B) tr :
  (lift r ≫= f) tr
  = match r with
    | Ok a => f a tr
    | Raise e => (tr, Raise e)
    end.
Proof. rewrite M_bind_unfold. unfold lift. destruct r; reflexivity. Qed.

Definition is_fetch_or_sleep (date_from : pyval) (flag : Z) (ev : event) : Prop :=
  ev = WbGet date_from flag ∨ ∃ s, ev = Sleep s.

Definition is_upsert (ev : event) : Prop := ∃ batch, ev = SinkUpsert batch.

(** The client never raises, and all it does is repeat one request and
    pause. *)
Lemma wb_attempts_events cfg net date_from flag remaining :
  ∀ attempt tr, 1 <= attempt ->
    ∃ evs data,
      wb_attempts cfg net date_from flag attempt remaining tr
      = ((tr ++ evs)%list, Ok data)
      ∧ Forall (is_fetch_or_sleep date_from flag) evs.
Proof.
  induction remaining as [| k IH]; intros attempt tr Ha.
  - exists [], []. rewrite app_nil_r. split; [reflexivity | constructor].
  - cbn [wb_attempts]. rewrite M_bind_unfold. unfold http at 1.
    assert (Hget : is_fetch_or_sleep date_from flag (WbGet date_from flag))
      by (left; reflexivity).
    assert (Hretry : ∀ s, 0 <= s ->
      ∃ evs data,
        (sleep s ≫= λ _, wb_attempts cfg net date_from flag (attempt + 1) k)
          (tr ++ [WbGet date_from flag])%list
        = ((tr ++ evs)%list, Ok data)
        ∧ Forall (is_fetch_or_sleep date_from flag) evs).
    { intros s Hs. rewrite M_bind_unfold, sleep_nonneg by exact Hs.
      destruct (IH (attempt + 1) ((tr ++ [WbGet date_from flag]) ++ [Sleep s])%list)
        as (evs & data & Hrun & Hall); [lia |].
      exists (WbGet date_from flag :: Sleep s :: evs), data.
      rewrite Hrun. split.
      - rewrite <- !app_assoc. reflexivity.
      - constructor; [exact Hget |]. constructor; [right; eauto | exact Hall]. }
    destruct (net (tr ++ [WbGet date_from flag])%list) as [status body |].
    + destruct (status =? 200).
      { eexists [WbGet date_from flag], _. split; [reflexivity |].
        constructor; [exact Hget | constructor]. }
      destruct (status =? 429).
      { apply Hretry. pose proof (Z.le_max_r (WB_SLEEP_SECONDS cfg) 65). lia. }
      destruct ((500 <=? status) && (status <? 600)).
      { apply Hretry. lia. }
      eexists [WbGet date_from flag], _. split; [reflexivity |].
      constructor; [exact Hget | constructor].
    + apply Hretry. lia.
Qed.

Lemma wb_request_events cfg net date_from flag max_retries tr :
  ∃ evs data,
    wb_request cfg net date_from flag max_retries tr = ((tr ++ evs)%list, Ok data)
    ∧ Forall (is_fetch_or_sleep date_from flag) evs.
Proof. unfold wb_request. apply wb_attempts_events. lia. Qed.

Lemma upsert_batches_events net fuel :
  ∀ size rows tr tr' r,
    upsert_batches net fuel size rows tr = (tr', r) ->
    ∃ evs, tr' = (tr ++ evs)%list ∧ Forall is_upsert evs.
Proof.
  induction fuel as [| f IH]; intros size rows tr tr' r H.
  - destruct rows; injection H as <- <-; exists []; rewrite app_nil_r;
      (split; [reflexivity | constructor]).
  - destruct rows as [| row rest].
    + injection H as <- <-. exists []. rewrite app_nil_r.
      split; [reflexivity | constructor].
    + cbn [upsert_batches] in H. rewrite M_bind_unfold in H. unfold http at 1 in H.
      rewrite lift_bind_unfold in H.
      set (ev := SinkUpsert (take size (row :: rest))) in *.
      destruct (raise_for_status _) as [body | e].
      * apply IH in H as (evs & -> & Hall). exists (ev :: evs).
        rewrite <- app_assoc. split; [reflexivity |].
        constructor; [eexists; reflexivity | exact Hall].
      * injection H as <- <-. exists [ev].
        split; [reflexivity |]. constructor; [eexists; reflexivity | constructor].
Qed.

Lemma upsert_orders_to_db_events cfg net rows tr tr' r :
  upsert_orders_to_db cfg net rows tr = (tr', r) ->
  ∃ evs, tr' = (tr ++ evs)%list ∧ Forall is_upsert evs.
Proof.
  unfold upsert_orders_to_db. intros H.
  assert (Hnil : ∀ x : result unit, (tr, x) = (tr', r) ->
            ∃ evs, tr' = (tr ++ evs)%list ∧ Forall is_upsert evs).
  { intros x [= <- _]. exists []. rewrite app_nil_r.
    split; [reflexivity | constructor]. }
  destruct rows as [| row rest]; [exact (Hnil _ H) |].
  destruct (BATCH_SIZE cfg =? 0); [exact (Hnil _ H) |].
  destruct (BATCH_SIZE cfg <? 0); [exact (Hnil _ H) |].
  exact (upsert_batches_events _ _ _ _ _ _ _ H).
Qed.

(** ** C9: the one-day reload *)

(** The UTC reading that a Moscow wall-clock reading stands for. *)
Definition moscow_utc_of_wall (w : Z) : Z :=
  w - offset_at_wall (tti_before Europe_Moscow) (transitions Europe_Moscow)
        (w - EPOCH_SECS).

Lemma datetime_new_inv y m d hh mm ss us tz dt :
  datetime_new y m d hh mm ss us tz = Ok dt ->
  dt = mkdt (wall_secs y m d hh mm ss) us tz
  ∧ valid_date y m d = true ∧ valid_time hh mm ss us = true.
Proof.
  unfold datetime_new.
  destruct (valid_date y m d) eqn:Hd; [| discriminate].
  destruct (valid_time hh mm ss us) eqn:Ht; [| discriminate].
  intros [= <-]. auto.
Qed.

Lemma datetime_add_inv dt delta dt' :
  datetime_add dt delta = Ok dt' ->
  dt' = mkdt (dt_secs dt + delta) (dt_micro dt) (dt_tzinfo dt)
  ∧ in_range (dt_secs dt + delta) = true.
Proof.
  unfold datetime_add. destruct (in_range _) eqn:R; [| discriminate].
  intros [= <-]. auto.
Qed.

Lemma timedelta_small seconds :
  -86400 <= seconds <= 86400 -> timedelta seconds = Ok seconds.
Proof.
  intros H. unfold timedelta.
  assert (E : (-999999999 <=? seconds / 86400) && (seconds / 86400 <=? 999999999)
              = true) by euclid.
  rewrite E. reflexivity.
Qed.

(** The window of a day whose local midnight is the wall-clock reading [w]. *)
Lemma day_window_of_midnight local z w start_utc end_utc :
  (end_msk ← datetime_add (mkdt w 0 (Some (Zone z))) 86400;
   su ← astimezone local (mkdt w 0 (Some (Zone z))) utc;
   eu ← astimezone local end_msk utc;
   Ok (su, eu)) = Ok (start_utc, end_utc) ->
  start_utc = mkdt (w - offset_at_wall (tti_before z) (transitions z)
                          (w - EPOCH_SECS)) 0 (Some utc)
  ∧ end_utc = mkdt (w + 86400 - offset_at_wall (tti_before z) (transitions z)
                                  (w + 86400 - EPOCH_SECS)) 0 (Some utc).
Proof.
  destruct (datetime_add (mkdt w 0 (Some (Zone z))) 86400)
    as [end_msk | e] eqn:He; cbn [mbind result_bind]; [| discriminate].
  apply datetime_add_inv in He as (-> & _). cbn [dt_secs dt_micro dt_tzinfo].
  destruct (astimezone local (mkdt w 0 (Some (Zone z))) utc)
    as [su | e] eqn:Hsu; cbn [mbind result_bind]; [| discriminate].
  destruct (astimezone local (mkdt (w + 86400) 0 (Some (Zone z))) utc)
    as [eu | e] eqn:Heu; cbn [mbind result_bind]; [| discriminate].
  intros H. apply Ok_inj in H. injection H as <- <-.
  apply astimezone_zone_to_utc in Hsu, Heu. subst su eu.
  split; reflexivity.
Qed.

(** The bounds are the UTC readings of the day's Moscow midnight and of the
    next Moscow midnight. *)
Lemma msk_day_window_inv cfg day start_utc end_utc :
  msk_day_window cfg day = Ok (start_utc, end_utc) ->
  ∃ y m d,
    fromisoformat_date day = Ok (y, m, d)
    ∧ start_utc = mkdt (moscow_utc_of_wall (wall_secs y m d 0 0 0)) 0 (Some utc)
    ∧ end_utc = mkdt (moscow_utc_of_wall (wall_secs y m d 0 0 0 + 86400)) 0
                     (Some utc).
Proof.
  unfold msk_day_window, moscow_utc_of_wall, MSK.
  destruct (fromisoformat_date day) as [[[y m] d] | e];
    cbn [mbind result_bind]; [| discriminate].
  destruct (datetime_new y m d 0 0 0 0 (Some (Zone Europe_Moscow)))
    as [start_msk | e] eqn:Hs; cbn [mbind result_bind]; [| discriminate].
  apply datetime_new_inv in Hs as (-> & _ & _).
  rewrite (timedelta_small 86400) by lia.
  intros H. exists y, m, d. split; [reflexivity |].
  exact (day_window_of_midnight _ _ _ _ _ H).
Qed.


(** A world that serves one page of two orders and accepts every write. *)
Definition net_one_page (tr : trace) : http_result :=
  match last tr with
  | Some (WbGet _ _) => Response 200 (JsonList [sample_order_a; sample_order_b])
  | _ => Response 201 (JsonList [])
  end.


(** ** The loop body *)

Lemma parse_ok_is_text cfg v dt :
  parse_wb_dt_to_utc cfg v = Ok dt -> ∃ s, v = PStr s ∧ s ≠ "".
Proof.
  unfold parse_wb_dt_to_utc, isoparse.
  destruct v as [| b | z | q | s]; cbn [mbind result_bind]; try discriminate.
  intros H. exists s. split; [reflexivity |].
  intros ->. discriminate H.
Qed.

Lemma py_eq_text prev s : py_eq prev (PStr s) = true ↔ prev = PStr s.
Proof.
  destruct prev as [| b | z | q | t]; cbn [py_eq num_val];
    try (split; [discriminate | discriminate]).
  rewrite String.eqb_eq. split; [intros -> | intros [= ->]]; reflexivity.
Qed.

Lemma truthy_text s : s ≠ "" -> truthy (PStr s) = true.
Proof.
  intros H. cbn [truthy]. destruct (String.eqb s "") eqn:E; [| reflexivity].
  apply String.eqb_eq in E. contradiction.
Qed.

(** After a successful transformation the last record of the page carries a
    non-empty [lastChangeDate] text that parses. *)
Lemma transform_last_lcd cfg wb_data rows last_row :
  transform_wb_orders cfg wb_data = Ok rows ->
  last wb_data = Some last_row ->
  ∃ s dt, last_row !! "lastChangeDate" = Some (PStr s) ∧ s ≠ ""
          ∧ parse_wb_dt_to_utc cfg (PStr s) = Ok dt.
Proof.
  intros Hrows Hlast.
  assert (Hok : forallb (wb_order_ok cfg) wb_data = true)
    by (apply transform_wb_orders_ok_iff; eauto).
  rewrite forallb_forall in Hok.
  apply last_Some_elem_of, list_elem_of_In in Hlast.
  specialize (Hok last_row Hlast). unfold wb_order_ok in Hok.
  destruct (last_row !! "date") as [dv |]; [| discriminate].
  destruct (last_row !! "lastChangeDate") as [lv |]; [| discriminate].
  apply andb_true_iff in Hok as [Hok _]. apply andb_true_iff in Hok as [_ Hlv].
  unfold parses in Hlv.
  destruct (parse_wb_dt_to_utc cfg lv) as [dt |] eqn:Hp; [| discriminate].
  destruct (parse_ok_is_text _ _ _ Hp) as (s & -> & Hne). eauto.
Qed.

(** What a turn of the loop that goes on to the next page has done. *)
Lemma process_page_next cfg net st wb_data tr tr' st' :
  process_page cfg net st wb_data tr = (tr', Ok (NextPage st')) ->
  ∃ last_row s,
    last wb_data = Some last_row
    ∧ last_row !! "lastChangeDate" = Some (PStr s)
    ∧ next_cursor cfg (prev_cursor st) (PStr s) (length wb_data) = Ok (cursor st')
    ∧ prev_cursor st' = PStr s
    ∧ pages st' = pages st.
Proof.
  unfold process_page. destruct (last wb_data) as [last_row |] eqn:Hlast;
    [| discriminate].
  rewrite lift_bind_unfold.
  destruct (transform_wb_orders cfg wb_data) as [rows | e] eqn:Hrows;
    [| discriminate].
  destruct (transform_last_lcd _ _ _ _ Hrows Hlast) as (s & dt & Hs & Hne & Hp).
  rewrite M_bind_unfold.
  destruct (upsert_orders_to_db cfg net rows tr) as [tr1 [[] | e]]; [| discriminate].
  unfold dict_get. rewrite Hs. cbn [default from_option id].
  rewrite (truthy_text _ Hne). cbn [negb].
  rewrite lift_bind_unfold.
  destruct (next_cursor cfg (prev_cursor st) (PStr s) (length wb_data))
    as [c | e] eqn:Hc; [| discriminate].
  rewrite M_bind_unfold.
  destruct (sleep (WB_SLEEP_SECONDS cfg) tr1) as [tr2 [[] | e]]; [| discriminate].
  intros [= <- <-]. exists last_row, s. cbn [cursor prev_cursor pages]. auto.
Qed.

(** The explicit stop on a missing [lastChangeDate] is never reached: such
    a page has already made the transformer raise. *)
Lemma process_page_outcome cfg net st wb_data tr tr' r :
  process_page cfg net st wb_data tr = (tr', r) ->
  (wb_data = [] ∧ r = Ok (Break EmptyPage) ∧ tr' = tr)
  ∨ (wb_data ≠ [] ∧ ((∃ st', r = Ok (NextPage st')) ∨ ∃ e, r = Raise e)).
Proof.
  unfold process_page. destruct (last wb_data) as [last_row |] eqn:Hlast.
  2:{ apply last_None in Hlast as ->. intros [= <- <-]. left. auto. }
  assert (Hne : wb_data ≠ []) by (intros ->; discriminate Hlast).
  intros H. right. split; [exact Hne |].
  rewrite lift_bind_unfold in H.
  destruct (transform_wb_orders cfg wb_data) as [rows | e] eqn:Hrows.
  2:{ injection H as <- <-. right. eauto. }
  destruct (transform_last_lcd _ _ _ _ Hrows Hlast) as (s & dt & Hs & Hnes & Hp).
  rewrite M_bind_unfold in H.
  destruct (upsert_orders_to_db cfg net rows tr) as [tr1 [[] | e]].
  2:{ injection H as <- <-. right. eauto. }
  unfold dict_get in H. rewrite Hs in H. cbn [default from_option id] in H.
  rewrite (truthy_text _ Hnes) in H. cbn [negb] in H.
  rewrite lift_bind_unfold in H.
  destruct (next_cursor cfg (prev_cursor st) (PStr s) (length wb_data))
    as [c | e].
  2:{ injection H as <- <-. right. eauto. }
  rewrite M_bind_unfold in H.
  destruct (sleep (WB_SLEEP_SECONDS cfg) tr1) as [tr2 [[] | e]].
  - injection H as <- <-. left. eauto.
  - injection H as <- <-. right. eauto.
Qed.

(** The sink takes every upsert. *)
Definition sink_accepts (net : trace → http_result) : Prop :=
  ∀ tr batch, ∃ status body,
    net (tr ++ [SinkUpsert batch])%list = Response status body
    ∧ (400 <=? status) && (status <? 600) = false.

Lemma upsert_batches_ok net fuel :
  sink_accepts net ->
  ∀ size rows tr, ∃ tr', upsert_batches net fuel size rows tr = (tr', Ok tt).
Proof.
  intros Hacc. induction fuel as [| f IH]; intros size rows tr.
  - exists tr. destruct rows; reflexivity.
  - destruct rows as [| row rest]; [exists tr; reflexivity |].
    cbn [upsert_batches]. rewrite M_bind_unfold. unfold http at 1.
    destruct (Hacc tr (take size (row :: rest))) as (status & body & Hnet & Hst).
    rewrite lift_bind_unfold, Hnet. unfold raise_for_status. rewrite Hst.
    apply IH.
Qed.

Lemma upsert_orders_to_db_ok cfg net rows tr :
  sink_accepts net -> BATCH_SIZE cfg ≠ 0 ->
  ∃ tr', upsert_orders_to_db cfg net rows tr = (tr', Ok tt).
Proof.
  intros Hacc Hb. unfold upsert_orders_to_db.
  destruct rows as [| row rest]; [exists tr; reflexivity |].
  assert (E : (BATCH_SIZE cfg =? 0) = false) by lia. rewrite E.
  destruct (BATCH_SIZE cfg <? 0); [exists tr; reflexivity |].
  apply upsert_batches_ok. exact Hacc.
Qed.

(** A non-empty page of well-formed records, a sink that accepts the
    upsert and a cursor that can be advanced: the loop goes on. *)
Lemma process_page_continues cfg net st wb_data tr last_row :
  last wb_data = Some last_row ->
  forallb (wb_order_ok cfg) wb_data = true ->
  sink_accepts net -> BATCH_SIZE cfg ≠ 0 -> 0 <= WB_SLEEP_SECONDS cfg ->
  (∃ c, next_cursor cfg (prev_cursor st) (dict_get last_row "lastChangeDate")
          (length wb_data) = Ok c) ->
  ∃ tr' st', process_page cfg net st wb_data tr = (tr', Ok (NextPage st')).
Proof.
  intros Hlast Hok Hacc Hb Hs [c Hc].
  apply transform_wb_orders_ok_iff in Hok as [rows Hrows].
  destruct (transform_last_lcd _ _ _ _ Hrows Hlast) as (s & dt & Hl & Hne & Hp).
  unfold process_page. rewrite Hlast, lift_bind_unfold, Hrows, M_bind_unfold.
  destruct (upsert_orders_to_db_ok cfg net rows tr Hacc Hb) as [tr1 Hup].
  rewrite Hup. unfold dict_get in Hc |- *. rewrite Hl in Hc |- *.
  cbn [default from_option id] in Hc |- *.
  rewrite (truthy_text _ Hne). cbn [negb].
  rewrite lift_bind_unfold, Hc, M_bind_unfold, sleep_nonneg by exact Hs.
  eauto.
Qed.

Lemma last_replicate {A} (x : A) n : last (replicate (S n) x) = Some x.
Proof.
  induction n as [| n IH]; [reflexivity |].
  change (replicate (S (S n)) x) with (x :: replicate (S n) x).
  rewrite last_cons, IH. reflexivity.
Qed.

Lemma forallb_replicate {A} (f : A → bool) (x : A) n :
  f x = true -> forallb f (replicate n x) = true.
Proof.
  intros H. induction n as [| n IH]; [reflexivity |].
  cbn [replicate forallb]. rewrite H, IH. reflexivity.
Qed.

(** ** C1: when the loop stops *)

Definition order_without_lcd : record :=
  list_to_map [("date", PStr "2024-03-01T10:00:00"); ("srid", PStr "c3")].

Definition net_page_without_lcd (tr : trace) : http_result :=
  Response 200 (JsonList [order_without_lcd]).




(** ** C2 and C10: the stall guard *)

Lemma next_cursor_stalled cfg prev s n c :
  py_eq prev (PStr s) = true -> 80000 <= Z.of_nat n ->
  next_cursor cfg prev (PStr s) n = Ok c ->
  ∃ dt bumped text,
    parse_wb_dt_to_utc cfg (PStr s) = Ok dt
    ∧ datetime_add dt 1 = Ok bumped
    ∧ format_dt_for_wb cfg bumped = Ok text
    ∧ c = PStr text.
Proof.
  intros Heq Hn. unfold next_cursor. rewrite Heq.
  assert (E : (80000 <=? Z.of_nat n) = true) by lia. rewrite E. cbn [andb].
  destruct (parse_wb_dt_to_utc cfg (PStr s)) as [dt | e] eqn:Hp;
    cbn [mbind result_bind]; [| discriminate].
  rewrite (timedelta_small 1) by lia. cbn [mbind result_bind].
  destruct (datetime_add dt 1) as [bumped | e] eqn:Hb;
    cbn [mbind result_bind]; [| discriminate].
  destruct (format_dt_for_wb cfg bumped) as [text | e] eqn:Hf;
    cbn [fmap result_fmap]; [| discriminate].
  intros H. apply Ok_inj in H. subst c.
  exists dt, bumped, text. auto.
Qed.

Lemma next_cursor_plain cfg prev v n :
  py_eq prev v = false ∨ Z.of_nat n < 80000 ->
  next_cursor cfg prev v n = Ok v.
Proof.
  intros H. unfold next_cursor.
  assert (E : py_eq prev v && (80000 <=? Z.of_nat n) = false).
  { destruct H as [-> | H]; [reflexivity |].
    apply andb_false_iff. right. lia. }
  rewrite E. reflexivity.
Qed.

(** C2: when the loop goes on to the next page, the last record of the
    page carries a [lastChangeDate] text [s]. If the page has at least
    80000 records and [s] equals the previous cursor, the next cursor is
    [format_dt_for_wb] of the instant [parse_wb_dt_to_utc s] plus exactly
    one second; in every other case (smaller page or different text) the
    next cursor is the raw text [s] itself. *)
Theorem stall_guard cfg net st wb_data tr tr' st' :
  process_page cfg net st wb_data tr = (tr', Ok (NextPage st')) ->
  ∃ last_row s,
    last wb_data = Some last_row
    ∧ last_row !! "lastChangeDate" = Some (PStr s)
    ∧ (80000 <= Z.of_nat (length wb_data) -> prev_cursor st = PStr s ->
       ∃ dt bumped text,
         parse_wb_dt_to_utc cfg (PStr s) = Ok dt
         ∧ datetime_add dt 1 = Ok bumped
         ∧ dt_secs bumped = dt_secs dt + 1
         ∧ format_dt_for_wb cfg bumped = Ok text
         ∧ cursor st' = PStr text)
    ∧ (Z.of_nat (length wb_data) < 80000 ∨ prev_cursor st ≠ PStr s ->
       cursor st' = PStr s).
Proof.
  intros H.
  destruct (process_page_next _ _ _ _ _ _ _ H)
    as (last_row & s & Hlast & Hs & Hc & _ & _).
  exists last_row, s. split; [exact Hlast |]. split; [exact Hs |]. split.
  - intros Hn Hprev.
    assert (Heq : py_eq (prev_cursor st) (PStr s) = true)
      by (apply py_eq_text; exact Hprev).
    destruct (next_cursor_stalled _ _ _ _ _ Heq Hn Hc)
      as (dt & bumped & text & Hp & Hb & Hf & Hcur).
    exists dt, bumped, text. repeat split; try assumption.
    apply datetime_add_inv in Hb as [-> _]. reflexivity.
  - intros Hother.
    rewrite next_cursor_plain in Hc.
    + apply Ok_inj in Hc. symmetry. exact Hc.
    + destruct Hother as [Hn | Hprev]; [right; exact Hn | left].
      destruct (py_eq (prev_cursor st) (PStr s)) eqn:E; [| reflexivity].
      apply py_eq_text in E. contradiction.
Qed.

Lemma sample_order_a_ok : wb_order_ok default_config sample_order_a = true.
Proof. vm_compute. reflexivity. Qed.

Lemma net_one_page_accepts : sink_accepts net_one_page.
Proof.
  intros tr batch. exists 201, (JsonList []). unfold net_one_page.
  rewrite last_snoc. split; reflexivity.
Qed.

(** A page of 80000 records that all carry the previous cursor. *)
Definition stalled_page : list record :=
  replicate (Z.to_nat 80000) sample_order_a.

Definition stalled_state : pagination :=
  {| cursor := PStr "2024-03-01T12:00:00";
     prev_cursor := PStr "2024-03-01T12:00:00";
     pages := 2 |}.

Lemma stalled_page_continues st :
  (∃ c, next_cursor default_config (prev_cursor st)
          (dict_get sample_order_a "lastChangeDate") (length stalled_page) = Ok c) ->
  ∃ tr' st',
    process_page default_config net_one_page st stalled_page []
    = (tr', Ok (NextPage st')).
Proof.
  intros Hc.
  apply (process_page_continues default_config net_one_page st stalled_page []
           sample_order_a).
  - unfold stalled_page.
    replace (Z.to_nat 80000) with (S (Z.to_nat 79999)) by lia.
    apply last_replicate.
  - apply forallb_replicate. exact sample_order_a_ok.
  - exact net_one_page_accepts.
  - discriminate.
  - discriminate.
  - exact Hc.
Qed.

Lemma stall_guard_witness :
  ∃ tr' st',
    process_page default_config net_one_page stalled_state stalled_page []
    = (tr', Ok (NextPage st'))
    ∧ ∃ last_row s,
        last stalled_page = Some last_row
        ∧ last_row !! "lastChangeDate" = Some (PStr s)
        ∧ (80000 <= Z.of_nat (length stalled_page) ->
           prev_cursor stalled_state = PStr s ->
           ∃ dt bumped text,
             parse_wb_dt_to_utc default_config (PStr s) = Ok dt
             ∧ datetime_add dt 1 = Ok bumped
             ∧ dt_secs bumped = dt_secs dt + 1
             ∧ format_dt_for_wb default_config bumped = Ok text
             ∧ cursor st' = PStr text)
        ∧ (Z.of_nat (length stalled_page) < 80000
           ∨ prev_cursor stalled_state ≠ PStr s ->
           cursor st' = PStr s).
Proof.
  destruct (stalled_page_continues stalled_state) as (tr' & st' & E).
  - unfold stalled_page. rewrite length_replicate.
    eexists. vm_compute. reflexivity.
  - exists tr', st'. split; [exact E |].
    exact (stall_guard _ _ _ _ _ _ _ E).
Defined.



(** ** C7: the overlap window *)

Lemma moscow_fromutc_bounds secs :
  7200 <= fromutc_offset MSK secs <= 18000.
Proof.
  unfold fromutc_offset, MSK.
  apply (zone_offsets_within_utc _ _ _ _ Moscow_offsets).
Qed.

(** C7: for a high-water mark [T] (a UTC value, as the sink read returns
    it) and an overlap of [M = OVERLAP_MINUTES] minutes, the fetch start
    computed by [incremental_sync] is exactly [T] minus [M] minutes, and the
    first cursor is [format_dt_for_wb] of that instant, provided the start
    and its Moscow reading are representable dates. *)
Theorem overlap_start cfg T :
  dt_tzinfo T = Some utc ->
  in_range (dt_secs T) = true ->
  0 <= dt_secs T - 60 * OVERLAP_MINUTES cfg ->
  dt_secs T - 60 * OVERLAP_MINUTES cfg + 18000 < MAX_SECS ->
  ∃ cursor,
    sync_start cfg T
    = Ok (mkdt (dt_secs T - 60 * OVERLAP_MINUTES cfg) (dt_micro T) (Some utc),
          cursor)
    ∧ format_dt_for_wb cfg
        (mkdt (dt_secs T - 60 * OVERLAP_MINUTES cfg) (dt_micro T) (Some utc))
      = Ok cursor.
Proof.
  intros Htz HT Hlo Hhi.
  set (m := OVERLAP_MINUTES cfg) in *.
  set (start := dt_secs T - 60 * m) in *.
  pose proof (moscow_fromutc_bounds start) as Hoff.
  assert (Hfmt : format_dt_for_wb cfg (mkdt start (dt_micro T) (Some utc))
                 = Ok (strftime_wb (mkdt (start + fromutc_offset MSK start)
                                         (dt_micro T) (Some MSK)))).
  { apply format_dt_for_wb_utc; [reflexivity | |];
      unfold in_range, MAX_SECS in *; lia. }
  eexists. split; [| exact Hfmt].
  unfold sync_start. fold m.
  assert (Htd : timedelta (60 * m) = Ok (60 * m)).
  { unfold timedelta.
    assert (E : (-999999999 <=? 60 * m / 86400) && (60 * m / 86400 <=? 999999999)
                = true)
      by (unfold in_range, MAX_SECS in *; subst start; euclid).
    rewrite E. reflexivity. }
  rewrite Htd. cbn [mbind result_bind].
  unfold datetime_add.
  replace (dt_secs T + - (60 * m)) with start by (subst start; lia).
  assert (R : in_range start = true) by (unfold in_range, MAX_SECS in *; lia).
  rewrite R, Htz. cbn [mbind result_bind]. rewrite Hfmt. reflexivity.
Qed.

Lemma overlap_start_witness :
  ∃ cursor,
    sync_start default_config (mkdt 63808117200 0 (Some utc))
    = Ok (mkdt (dt_secs (mkdt 63808117200 0 (Some utc))
                - 60 * OVERLAP_MINUTES default_config)
               (dt_micro (mkdt 63808117200 0 (Some utc))) (Some utc), cursor)
    ∧ format_dt_for_wb default_config
        (mkdt (dt_secs (mkdt 63808117200 0 (Some utc))
               - 60 * OVERLAP_MINUTES default_config)
              (dt_micro (mkdt 63808117200 0 (Some utc))) (Some utc))
      = Ok cursor.
Proof.
  apply overlap_start; vm_compute; first [reflexivity | discriminate].
Defined.

(** ** C8: the high-water mark *)

(** The one read that [get_db_max_last_change_date_utc] issues. *)
Definition select_max_last_change_date : event :=
  SinkSelect [("select", "last_change_date");
              ("order", "last_change_date.desc");
              ("limit", "1")].

Lemma history_floor_value local :
  (start_msk ← datetime_new 2023 1 1 0 0 0 0 (Some MSK);
   astimezone local start_msk utc)
  = Ok (mkdt (moscow_utc_of_wall (wall_secs 2023 1 1 0 0 0)) 0 (Some utc)).
Proof. vm_compute. reflexivity. Qed.


Definition sink_row_max : record :=
  list_to_map [("last_change_date", PStr "2024-03-01T09:00:00+00:00")].

Definition net_sink_with_rows (tr : trace) : http_result :=
  Response 200 (JsonList [sink_row_max]).


(** * Further properties of the source functions *)

(** ** [wb_request]: bounded, uniform, never raising *)

Fixpoint count_fetches (evs : list event) : nat :=
  match evs with
  | [] => 0
  | WbGet _ _ :: rest => S (count_fetches rest)
  | _ :: rest => count_fetches rest
  end.

Lemma count_fetches_app evs1 evs2 :
  count_fetches (evs1 ++ evs2)%list = (count_fetches evs1 + count_fetches evs2)%nat.
Proof.
  induction evs1 as [| ev evs1 IH]; [reflexivity |].
  destruct ev; cbn [app count_fetches]; rewrite IH; reflexivity.
Qed.

Lemma wb_attempts_bounded cfg net date_from flag remaining :
  ∀ attempt tr, 1 <= attempt ->
    ∃ evs data,
      wb_attempts cfg net date_from flag attempt remaining tr
      = ((tr ++ evs)%list, Ok data)
      ∧ Forall (is_fetch_or_sleep date_from flag) evs
      ∧ (count_fetches evs <= remaining)%nat.
Proof.
  induction remaining as [| k IH]; intros attempt tr Ha.
  - exists [], []. rewrite app_nil_r. repeat split; [constructor | reflexivity].
  - cbn [wb_attempts]. rewrite M_bind_unfold. unfold http at 1.
    assert (Hget : is_fetch_or_sleep date_from flag (WbGet date_from flag))
      by (left; reflexivity).
    assert (Hone : ∀ data : list record,
      ∃ evs data',
        ((tr ++ [WbGet date_from flag])%list, Ok data)
        = ((tr ++ evs)%list, Ok data')
        ∧ Forall (is_fetch_or_sleep date_from flag) evs
        ∧ (count_fetches evs <= S k)%nat).
    { intros data. exists [WbGet date_from flag], data.
      split; [reflexivity |]. split; [| cbn; lia].
      constructor; [exact Hget | constructor]. }
    assert (Hretry : ∀ s, 0 <= s ->
      ∃ evs data,
        (sleep s ≫= λ _, wb_attempts cfg net date_from flag (attempt + 1) k)
          (tr ++ [WbGet date_from flag])%list
        = ((tr ++ evs)%list, Ok data)
        ∧ Forall (is_fetch_or_sleep date_from flag) evs
        ∧ (count_fetches evs <= S k)%nat).
    { intros s Hs. rewrite M_bind_unfold, sleep_nonneg by exact Hs.
      destruct (IH (attempt + 1) ((tr ++ [WbGet date_from flag]) ++ [Sleep s])%list)
        as (evs & data & Hrun & Hall & Hcnt); [lia |].
      exists (WbGet date_from flag :: Sleep s :: evs), data.
      rewrite Hrun. split; [| split].
      - rewrite <- !app_assoc. reflexivity.
      - constructor; [exact Hget |]. constructor; [right; eauto | exact Hall].
      - cbn [count_fetches]. lia. }
    destruct (net (tr ++ [WbGet date_from flag])%list) as [status body |].
    + destruct (status =? 200); [apply Hone |].
      destruct (status =? 429).
      { apply Hretry. pose proof (Z.le_max_r (WB_SLEEP_SECONDS cfg) 65). lia. }
      destruct ((500 <=? status) && (status <? 600)); [apply Hretry; lia |].
      apply Hone.
    + apply Hretry. lia.
Qed.

(** X1: whatever the upstream answers, [wb_request] returns a list and
    never raises; all it does is send one and the same request (same
    [dateFrom], same [flag]) and pause, and it sends that request at most
    [max_retries] times. *)
Theorem wb_request_bounded cfg net date_from flag max_retries tr :
  ∃ evs data,
    wb_request cfg net date_from flag max_retries tr = ((tr ++ evs)%list, Ok data)
    ∧ Forall (is_fetch_or_sleep date_from flag) evs
    ∧ (count_fetches evs <= Z.to_nat max_retries)%nat.
Proof. unfold wb_request. apply wb_attempts_bounded. lia. Qed.

(** X2: a status that is neither 200, 429 nor 5xx is not retried: one
    request, no pause, the empty list. *)
Theorem wb_request_non_retryable cfg net date_from flag max_retries tr status body :
  1 <= max_retries ->
  net (tr ++ [WbGet date_from flag])%list = Response status body ->
  status ≠ 200 -> status ≠ 429 -> ¬ (500 <= status < 600) ->
  wb_request cfg net date_from flag max_retries tr
  = ((tr ++ [WbGet date_from flag])%list, Ok []).
Proof.
  intros Hmax Hnet H200 H429 H5xx. unfold wb_request.
  destruct (Z.to_nat max_retries) as [| k] eqn:Hk; [lia |].
  cbn [wb_attempts]. rewrite M_bind_unfold. unfold http at 1. rewrite Hnet.
  assert (E1 : (status =? 200) = false) by lia.
  assert (E2 : (status =? 429) = false) by lia.
  assert (E3 : (500 <=? status) && (status <? 600) = false) by lia.
  rewrite E1, E2, E3. reflexivity.
Qed.

Definition net_forbidden (tr : trace) : http_result :=
  Response 403 (JsonOther true).

Lemma wb_request_non_retryable_witness :
  wb_request default_config net_forbidden (PStr "2024-03-01T10:00:00") 0 6 []
  = (([] ++ [WbGet (PStr "2024-03-01T10:00:00") 0])%list, Ok []).
Proof.
  apply (wb_request_non_retryable default_config net_forbidden _ _ 6 [] 403
           (JsonOther true)); first [reflexivity | lia].
Defined.


Definition net_object_body (tr : trace) : http_result :=
  Response 200 (JsonOther true).


(** What the client does across [k] transient failures, the first of them
    met on attempt number [attempt]: the same request, each time followed
    by a pause of ten seconds times the attempt number. *)
Fixpoint backoff_trace (date_from : pyval) (flag : Z) (attempt : Z) (k : nat)
  : list event :=
  match k with
  | O => []
  | S k' =>
      WbGet date_from flag :: Sleep (10 * attempt)
      :: backoff_trace date_from flag (attempt + 1) k'
  end.

(** A server error (5xx) or a failure of the transport. *)
Definition is_transient (r : http_result) : bool :=
  match r with
  | Response status _ => (500 <=? status) && (status <? 600)
  | ConnectionFailed => true
  end.

Definition transient_failures (net : trace → http_result)
    (date_from : pyval) (flag : Z) (attempt : Z) (tr : trace) (k : nat) : Prop :=
  ∀ j, (j < k)%nat ->
    is_transient (net (tr ++ backoff_trace date_from flag attempt j
                          ++ [WbGet date_from flag])%list) = true.

Lemma wb_attempts_backoff cfg net date_from flag k :
  ∀ remaining attempt tr,
    1 <= attempt ->
    transient_failures net date_from flag attempt tr k ->
    wb_attempts cfg net date_from flag attempt (k + remaining) tr
    = wb_attempts cfg net date_from flag (attempt + Z.of_nat k) remaining
        (tr ++ backoff_trace date_from flag attempt k)%list.
Proof.
  induction k as [| k IH]; intros remaining attempt tr Ha Hfail.
  - cbn [backoff_trace Nat.add Z.of_nat]. rewrite app_nil_r, Z.add_0_r.
    reflexivity.
  - pose proof (Hfail 0%nat ltac:(lia)) as H0.
    cbn [backoff_trace app] in H0.
    cbn [Nat.add wb_attempts]. rewrite M_bind_unfold. unfold http at 1.
    assert (Hnext :
      (sleep (10 * attempt) ≫= λ _,
         wb_attempts cfg net date_from flag (attempt + 1) (k + remaining))
        (tr ++ [WbGet date_from flag])%list
      = wb_attempts cfg net date_from flag (attempt + Z.of_nat (S k)) remaining
          (tr ++ backoff_trace date_from flag attempt (S k))%list).
    { rewrite M_bind_unfold, sleep_nonneg by lia. rewrite IH.
      - cbn [backoff_trace]. rewrite <- !app_assoc. cbn [app].
        replace (attempt + 1 + Z.of_nat k) with (attempt + Z.of_nat (S k)) by lia.
        reflexivity.
      - lia.
      - intros j Hj. pose proof (Hfail (S j) ltac:(lia)) as Hj'.
        cbn [backoff_trace] in Hj'. rewrite <- !app_assoc. exact Hj'. }
    destruct (net (tr ++ [WbGet date_from flag])%list) as [status body |];
      [| exact Hnext].
    cbn [is_transient] in H0.
    assert (E1 : (status =? 200) = false) by lia.
    assert (E2 : (status =? 429) = false) by lia.
    rewrite E1, E2, H0. exact Hnext.
Qed.

(** X4: server errors and transport failures are retried with a linear
    back-off: after the [j]-th failed attempt the client pauses [10 * j]
    seconds and sends the same request again. If a 200 answer with a list
    follows fewer than [max_retries] failures that list is returned; after
    [max_retries] failures in a row the empty list is returned. *)
Theorem transient_failure_backoff cfg net date_from flag max_retries tr k :
  (k <= Z.to_nat max_retries)%nat ->
  transient_failures net date_from flag 1 tr k ->
  (k = Z.to_nat max_retries ->
   wb_request cfg net date_from flag max_retries tr
   = ((tr ++ backoff_trace date_from flag 1 k)%list, Ok []))
  ∧ (∀ data,
       (k < Z.to_nat max_retries)%nat ->
       net (tr ++ backoff_trace date_from flag 1 k ++ [WbGet date_from flag])%list
       = Response 200 (JsonList data) ->
       wb_request cfg net date_from flag max_retries tr
       = ((tr ++ backoff_trace date_from flag 1 k ++ [WbGet date_from flag])%list,
          Ok data)).
Proof.
  intros Hk Hfail. unfold wb_request. split.
  - intros ->.
    replace (Z.to_nat max_retries) with (Z.to_nat max_retries + 0)%nat at 1 by lia.
    rewrite (wb_attempts_backoff cfg net date_from flag _ 0%nat 1 tr ltac:(lia) Hfail).
    reflexivity.
  - intros data Hlt Hok.
    replace (Z.to_nat max_retries)
      with (k + S (Z.to_nat max_retries - k - 1))%nat by lia.
    rewrite (wb_attempts_backoff cfg net date_from flag k _ 1 tr ltac:(lia) Hfail).
    cbn [wb_attempts]. rewrite M_bind_unfold. unfold http.
    rewrite <- app_assoc, Hok. reflexivity.
Qed.

(** A world whose upstream is down: 503 on every request. *)
Definition net_unavailable (tr : trace) : http_result :=
  Response 503 (JsonOther true).

Lemma transient_failure_backoff_witness :
  (6%nat = Z.to_nat 6 ->
   wb_request default_config net_unavailable (PStr "2024-03-01T10:00:00") 0 6 []
   = (([] ++ backoff_trace (PStr "2024-03-01T10:00:00") 0 1 6)%list, Ok []))
  ∧ (∀ data,
       (6 < Z.to_nat 6)%nat ->
       net_unavailable
         ([] ++ backoff_trace (PStr "2024-03-01T10:00:00") 0 1 6
             ++ [WbGet (PStr "2024-03-01T10:00:00") 0])%list
       = Response 200 (JsonList data) ->
       wb_request default_config net_unavailable (PStr "2024-03-01T10:00:00") 0 6 []
       = (([] ++ backoff_trace (PStr "2024-03-01T10:00:00") 0 1 6
              ++ [WbGet (PStr "2024-03-01T10:00:00") 0])%list, Ok data)).
Proof.
  apply transient_failure_backoff.
  - vm_compute. lia.
  - intros j Hj. reflexivity.
Defined.

(** ** [upsert_orders_to_db]: chunking and failure *)

Lemma upsert_batches_chunks net fuel :
  sink_accepts net ->
  ∀ size rows tr,
    (0 < size)%nat -> (length rows <= fuel)%nat ->
    ∃ batches,
      upsert_batches net fuel size rows tr
      = ((tr ++ map SinkUpsert batches)%list, Ok tt)
      ∧ concat batches = rows
      ∧ Forall (fun b : list record => (0 < length b <= size)%nat) batches.
Proof.
  intros Hacc. induction fuel as [| f IH]; intros size rows tr Hsize Hlen.
  - destruct rows; [| cbn in Hlen; lia].
    exists []. rewrite app_nil_r. repeat split; constructor.
  - destruct rows as [| row rest].
    { exists []. rewrite app_nil_r. repeat split; constructor. }
    cbn [upsert_batches]. rewrite M_bind_unfold. unfold http at 1.
    set (batch := take size (row :: rest)).
    destruct (Hacc tr batch) as (status & body & Hnet & Hst).
    rewrite lift_bind_unfold, Hnet. unfold raise_for_status. rewrite Hst.
    destruct (IH size (drop size (row :: rest)) (tr ++ [SinkUpsert batch])%list Hsize)
      as (batches & Hrun & Hcat & Hall).
    { rewrite length_drop. cbn [length] in *. lia. }
    exists (batch :: batches). rewrite Hrun. split; [| split].
    + rewrite <- app_assoc. reflexivity.
    + cbn [concat]. rewrite Hcat. apply take_drop.
    + constructor; [| exact Hall]. subst batch. rewrite length_take.
      cbn [length]. lia.
Qed.

(** X5: when the sink accepts the writes and [BATCH_SIZE] is positive,
    [upsert_orders_to_db] posts every row exactly once and in order, in
    chunks of at least one and at most [BATCH_SIZE] rows, and nothing else;
    for an empty list it posts nothing. *)
Theorem upsert_orders_to_db_batches cfg net rows tr :
  sink_accepts net -> 0 < BATCH_SIZE cfg ->
  ∃ batches,
    upsert_orders_to_db cfg net rows tr
    = ((tr ++ map SinkUpsert batches)%list, Ok tt)
    ∧ concat batches = rows
    ∧ Forall (fun b : list record => 0 < Z.of_nat (length b) <= BATCH_SIZE cfg)
        batches.
Proof.
  intros Hacc Hb. unfold upsert_orders_to_db.
  destruct rows as [| row rest].
  { exists []. rewrite app_nil_r. repeat split; constructor. }
  assert (E1 : (BATCH_SIZE cfg =? 0) = false) by lia.
  assert (E2 : (BATCH_SIZE cfg <? 0) = false) by lia.
  rewrite E1, E2.
  destruct (upsert_batches_chunks net (length (row :: rest)) Hacc
              (Z.to_nat (BATCH_SIZE cfg)) (row :: rest) tr)
    as (batches & Hrun & Hcat & Hall); [lia | lia |].
  exists batches. split; [exact Hrun |]. split; [exact Hcat |].
  eapply Forall_impl; [exact Hall |]. intros b Hlen. cbv beta in Hlen. lia.
Qed.

Lemma upsert_orders_to_db_batches_witness :
  ∃ batches,
    upsert_orders_to_db default_config net_one_page
      [sample_order_a; sample_order_b] []
    = (([] ++ map SinkUpsert batches)%list, Ok tt)
    ∧ concat batches = [sample_order_a; sample_order_b]
    ∧ Forall (fun b : list record =>
                0 < Z.of_nat (length b) <= BATCH_SIZE default_config) batches.
Proof.
  apply upsert_orders_to_db_batches; [exact net_one_page_accepts | reflexivity].
Defined.

Lemma upsert_batches_raise net fuel :
  ∀ size rows tr tr' e,
    upsert_batches net fuel size rows tr = (tr', Raise e) ->
    tr' ≠ tr ∧ raise_for_status (net tr') = Raise e.
Proof.
  induction fuel as [| f IH]; intros size rows tr tr' e H.
  - destruct rows; discriminate H.
  - destruct rows as [| row rest]; [discriminate H |].
    cbn [upsert_batches] in H. rewrite M_bind_unfold in H. unfold http at 1 in H.
    rewrite lift_bind_unfold in H.
    set (ev := SinkUpsert (take size (row :: rest))) in *.
    assert (Hgrow : ∀ t : trace, ∀ evs, t = ((tr ++ [ev]) ++ evs)%list -> t ≠ tr).
    { intros t evs -> Heq. apply (f_equal length) in Heq.
      rewrite !length_app in Heq. cbn [length] in Heq. lia. }
    destruct (raise_for_status (net (tr ++ [ev])%list)) as [body | e'] eqn:Hst.
    + destruct (upsert_batches_events _ _ _ _ _ _ _ H) as (evs & Htr & _).
      apply IH in H as [_ Hraise]. split; [| exact Hraise].
      exact (Hgrow _ _ Htr).
    + injection H as <- <-. split; [| exact Hst].
      apply (Hgrow _ []). rewrite app_nil_r. reflexivity.
Qed.

(** X6: when [upsert_orders_to_db] raises, either [BATCH_SIZE] is zero and
    nothing was posted, or the exception is the refusal of the last request
    made: the run stops at the first refused chunk and posts nothing after
    it, the chunks posted before stay posted. *)
Theorem upsert_orders_to_db_stops_at_refusal cfg net rows tr tr' e :
  upsert_orders_to_db cfg net rows tr = (tr', Raise e) ->
  (BATCH_SIZE cfg = 0 ∧ tr' = tr ∧ e = ValueError)
  ∨ (∃ evs, tr' = (tr ++ evs)%list ∧ evs ≠ [] ∧ Forall is_upsert evs
            ∧ raise_for_status (net tr') = Raise e).
Proof.
  intros H. pose proof (upsert_orders_to_db_events _ _ _ _ _ _ H) as (evs & Htr & Hall).
  unfold upsert_orders_to_db in H.
  destruct rows as [| row rest]; [discriminate H |].
  destruct (BATCH_SIZE cfg =? 0) eqn:E0.
  { injection H as <- <-. left. repeat split. lia. }
  destruct (BATCH_SIZE cfg <? 0); [discriminate H |].
  apply upsert_batches_raise in H as [Hne Hraise].
  right. exists evs. split; [exact Htr |]. split; [| split; assumption].
  intros ->. rewrite app_nil_r in Htr. contradiction.
Qed.

(** A sink that refuses every write. *)
Definition net_sink_down (tr : trace) : http_result :=
  match last tr with
  | Some (WbGet _ _) => Response 200 (JsonList [sample_order_a; sample_order_b])
  | _ => Response 500 (JsonOther true)
  end.

Lemma upsert_orders_to_db_stops_at_refusal_witness :
  ∃ tr' e,
    upsert_orders_to_db default_config net_sink_down
      [sample_order_a; sample_order_b] [] = (tr', Raise e)
    ∧ ((BATCH_SIZE default_config = 0 ∧ tr' = [] ∧ e = ValueError)
       ∨ (∃ evs, tr' = ([] ++ evs)%list ∧ evs ≠ [] ∧ Forall is_upsert evs
                 ∧ raise_for_status (net_sink_down tr') = Raise e)).
Proof.
  exists [SinkUpsert (take (Z.to_nat (BATCH_SIZE default_config))
                        [sample_order_a; sample_order_b])], (HTTPError 500).
  assert (E : upsert_orders_to_db default_config net_sink_down
                [sample_order_a; sample_order_b] []
              = ([SinkUpsert (take (Z.to_nat (BATCH_SIZE default_config))
                                [sample_order_a; sample_order_b])],
                 Raise (HTTPError 500))) by reflexivity.
  split; [exact E |].
  exact (upsert_orders_to_db_stops_at_refusal _ _ _ _ _ _ E).
Defined.

(** ** [full_reload_day_msk] and [delete_msk_day_from_db]: a refused delete *)

(** X7: when the sink refuses the range delete, the reload raises that
    error at once: the delete is the only request made, nothing is fetched
    and nothing is upserted. *)
Theorem reload_stops_when_delete_refused cfg net day tr start_utc end_utc e :
  msk_day_window cfg day = Ok (start_utc, end_utc) ->
  raise_for_status
    (net (tr ++ [SinkDelete [("date", "gte." +:+ isoformat start_utc);
                             ("date", "lt." +:+ isoformat end_utc)]])%list)
  = Raise e ->
  full_reload_day_msk cfg net day tr
  = ((tr ++ [SinkDelete [("date", "gte." +:+ isoformat start_utc);
                         ("date", "lt." +:+ isoformat end_utc)]])%list,
     Raise e).
Proof.
  intros Hw Hraise. unfold full_reload_day_msk, delete_msk_day_from_db.
  rewrite M_bind_unfold, lift_bind_unfold, Hw.
  rewrite M_bind_unfold. unfold http at 1.
  rewrite lift_bind_unfold, Hraise. reflexivity.
Qed.

Lemma reload_stops_when_delete_refused_witness :
  ∃ start_utc end_utc,
    msk_day_window default_config "2024-03-01" = Ok (start_utc, end_utc)
    ∧ full_reload_day_msk default_config net_unavailable "2024-03-01" []
      = (([] ++ [SinkDelete [("date", "gte." +:+ isoformat start_utc);
                             ("date", "lt." +:+ isoformat end_utc)]])%list,
         Raise (HTTPError 503)).
Proof.
  destruct (msk_day_window default_config "2024-03-01")
    as [[start_utc end_utc] | e] eqn:Hw; [| vm_compute in Hw; discriminate Hw].
  exists start_utc, end_utc. split; [reflexivity |].
  apply (reload_stops_when_delete_refused _ _ _ _ _ _ _ Hw). reflexivity.
Defined.

(** ** The incremental loop: order of effects and ending *)

Lemma process_page_next_trace cfg net st wb_data tr tr' st' :
  process_page cfg net st wb_data tr = (tr', Ok (NextPage st')) ->
  ∃ upserts,
    tr' = (tr ++ upserts ++ [Sleep (WB_SLEEP_SECONDS cfg)])%list
    ∧ Forall is_upsert upserts.
Proof.
  unfold process_page. destruct (last wb_data) as [last_row |]; [| discriminate].
  rewrite lift_bind_unfold.
  destruct (transform_wb_orders cfg wb_data) as [rows | e]; [| discriminate].
  rewrite M_bind_unfold.
  destruct (upsert_orders_to_db cfg net rows tr) as [tr1 [[] | e]] eqn:Hup;
    [| discriminate].
  apply upsert_orders_to_db_events in Hup as (ups & -> & Hups).
  destruct (negb (truthy (dict_get last_row "lastChangeDate"))); [discriminate |].
  rewrite lift_bind_unfold.
  destruct (next_cursor cfg _ _ _) as [c | e]; [| discriminate].
  rewrite M_bind_unfold. unfold sleep.
  destruct (WB_SLEEP_SECONDS cfg <? 0); [discriminate |].
  unfold emit. intros [= <- _]. exists ups.
  rewrite <- app_assoc. split; [reflexivity | exact Hups].
Qed.



(** X9: a run of the incremental loop that ends normally ends because a
    page came back empty, and that fetch is the last thing the run did. *)
Theorem incremental_loop_ends_on_empty_fetch cfg net fuel :
  ∀ st tr tr' why,
    incremental_loop cfg net fuel st tr = (tr', Ok (Done why)) ->
    why = EmptyPage
    ∧ ∃ cursor_last tr_last,
        wb_request cfg net cursor_last 0 6 tr_last = (tr', Ok []).
Proof.
  induction fuel as [| f IH]; intros st tr tr' why H; [discriminate H |].
  cbn [incremental_loop] in H. rewrite M_bind_unfold in H.
  destruct (sync_page cfg net st tr) as [tr1 [[w | st1] | e]] eqn:Hpage;
    [| exact (IH _ _ _ _ H) | discriminate H].
  injection H as <- <-.
  unfold sync_page in Hpage. cbv zeta in Hpage. cbn [cursor] in Hpage.
  rewrite M_bind_unfold in Hpage.
  destruct (wb_request_events cfg net (cursor st) 0 6 tr)
    as (fetches & data & Hreq & _).
  rewrite Hreq in Hpage.
  destruct (process_page_outcome _ _ _ _ _ _ _ Hpage)
    as [(-> & Hr & ->) | (_ & [[st' Hr] | [e Hr]])]; try discriminate Hr.
  injection Hr as ->. split; [reflexivity |]. eauto.
Qed.

(** A world whose upstream has nothing to report. *)
Definition net_no_data (tr : trace) : http_result :=
  Response 200 (JsonList []).

Lemma incremental_loop_ends_on_empty_fetch_witness :
  EmptyPage = EmptyPage
  ∧ ∃ cursor_last tr_last,
      wb_request default_config net_no_data cursor_last 0 6 tr_last
      = ([WbGet (PStr "2024-03-01T00:00:00") 0], Ok []).
Proof.
  apply (incremental_loop_ends_on_empty_fetch default_config net_no_data 3
           (initial_pagination "2024-03-01T00:00:00") []).
  reflexivity.
Defined.

(** X10: when the read of the high-water mark fails (an error status from
    the sink), [incremental_sync] raises that error and has made no other
    request: no page is fetched without a cursor basis. *)
Theorem incremental_sync_read_failure_is_fatal cfg net fuel tr e :
  raise_for_status (net (tr ++ [select_max_last_change_date])%list) = Raise e ->
  incremental_sync cfg net fuel tr
  = ((tr ++ [select_max_last_change_date])%list, Raise e).
Proof.
  intros Hraise. unfold incremental_sync, get_db_max_last_change_date_utc.
  fold select_max_last_change_date.
  rewrite !M_bind_unfold. unfold http at 1.
  rewrite lift_bind_unfold, Hraise. reflexivity.
Qed.

Lemma incremental_sync_read_failure_is_fatal_witness :
  incremental_sync default_config net_unavailable 5 []
  = (([] ++ [select_max_last_change_date])%list, Raise (HTTPError 503)).
Proof.
  apply incremental_sync_read_failure_is_fatal. reflexivity.
Defined.

Lemma wb_request_first_event cfg net date_from flag tr :
  ∃ rest data,
    wb_request cfg net date_from flag 6 tr
    = ((tr ++ WbGet date_from flag :: rest)%list, Ok data).
Proof.
  unfold wb_request. change (Z.to_nat 6) with 6%nat.
  cbn [wb_attempts]. rewrite M_bind_unfold. unfold http at 1.
  assert (Hretry : ∀ s, 0 <= s ->
    ∃ rest data,
      (sleep s ≫= λ _, wb_attempts cfg net date_from flag (1 + 1) 5)
        (tr ++ [WbGet date_from flag])%list
      = ((tr ++ WbGet date_from flag :: rest)%list, Ok data)).
  { intros s Hs. rewrite M_bind_unfold, sleep_nonneg by exact Hs.
    destruct (wb_attempts_events cfg net date_from flag 5 (1 + 1)
                ((tr ++ [WbGet date_from flag]) ++ [Sleep s])%list)
      as (evs & data & Hrun & _); [lia |].
    exists (Sleep s :: evs), data. rewrite Hrun, <- !app_assoc. reflexivity. }
  assert (Hone : ∀ data : list record,
    ∃ rest data',
      ((tr ++ [WbGet date_from flag])%list, Ok data)
      = ((tr ++ WbGet date_from flag :: rest)%list, Ok data'))
    by (intros data; exists [], data; reflexivity).
  destruct (net (tr ++ [WbGet date_from flag])%list) as [status body |].
  - destruct (status =? 200); [apply Hone |].
    destruct (status =? 429).
    { apply Hretry. pose proof (Z.le_max_r (WB_SLEEP_SECONDS cfg) 65). lia. }
    destruct ((500 <=? status) && (status <? 600)); [apply Hretry; lia |].
    apply Hone.
  - apply Hretry. lia.
Qed.

Lemma process_page_extends cfg net st wb_data tr tr' r :
  process_page cfg net st wb_data tr = (tr', r) -> ∃ evs, tr' = (tr ++ evs)%list.
Proof.
  assert (Hsame : ∀ x : result page_outcome, (tr, x) = (tr', r) ->
            ∃ evs, tr' = (tr ++ evs)%list).
  { intros x [= <- _]. exists []. rewrite app_nil_r. reflexivity. }
  unfold process_page. destruct (last wb_data) as [last_row |]; [| apply Hsame].
  rewrite lift_bind_unfold.
  destruct (transform_wb_orders cfg wb_data) as [rows | e]; [| apply Hsame].
  rewrite M_bind_unfold.
  destruct (upsert_orders_to_db cfg net rows tr) as [tr1 [[] | e]] eqn:Hup.
  2:{ apply upsert_orders_to_db_events in Hup as (ups & -> & _).
      intros [= <- _]. eauto. }
  apply upsert_orders_to_db_events in Hup as (ups & -> & _).
  destruct (negb (truthy (dict_get last_row "lastChangeDate"))).
  { intros [= <- _]. eauto. }
  rewrite lift_bind_unfold.
  destruct (next_cursor cfg _ _ _) as [c | e]; [| intros [= <- _]; eauto].
  rewrite M_bind_unfold. unfold sleep.
  destruct (WB_SLEEP_SECONDS cfg <? 0); [intros [= <- _]; eauto |].
  unfold emit. intros [= <- _]. rewrite <- app_assoc. eauto.
Qed.

Lemma incremental_loop_extends cfg net fuel :
  ∀ st tr tr' r,
    incremental_loop cfg net fuel st tr = (tr', r) -> ∃ evs, tr' = (tr ++ evs)%list.
Proof.
  induction fuel as [| f IH]; intros st tr tr' r H.
  - injection H as <- _. exists []. rewrite app_nil_r. reflexivity.
  - cbn [incremental_loop] in H. rewrite M_bind_unfold in H.
    destruct (sync_page cfg net st tr) as [tr1 o] eqn:Hpage.
    assert (Hext : ∃ evs, tr1 = (tr ++ evs)%list).
    { unfold sync_page in Hpage. cbv zeta in Hpage. cbn [cursor] in Hpage.
      rewrite M_bind_unfold in Hpage.
      destruct (wb_request_events cfg net (cursor st) 0 6 tr)
        as (fetches & data & Hreq & _).
      rewrite Hreq in Hpage.
      apply process_page_extends in Hpage as [evs ->].
      rewrite <- app_assoc. eauto. }
    destruct Hext as [evs1 ->].
    destruct o as [[w | st1] | e].
    + injection H as <- _. eauto.
    + apply IH in H as [evs2 ->]. rewrite <- app_assoc. eauto.
    + injection H as <- _. eauto.
Qed.

(** X11: once the high-water mark [T] has been read, the first request of
    the incremental run is the fetch with [flag=0] at the cursor computed
    from [T] and the overlap; nothing comes between the read and that
    fetch. *)
Theorem incremental_sync_first_fetch cfg net fuel tr hwm start cursor0 :
  get_db_max_last_change_date_utc cfg net tr
  = ((tr ++ [select_max_last_change_date])%list, Ok hwm) ->
  sync_start cfg hwm = Ok (start, cursor0) ->
  ∃ rest r,
    incremental_sync cfg net (S fuel) tr
    = ((tr ++ select_max_last_change_date :: WbGet (PStr cursor0) 0 :: rest)%list,
       r).
Proof.
  intros Hread Hstart. unfold incremental_sync.
  rewrite M_bind_unfold, Hread, lift_bind_unfold, Hstart.
  cbn [incremental_loop]. rewrite M_bind_unfold.
  unfold sync_page. cbv zeta. cbn [initial_pagination cursor prev_cursor pages].
  rewrite M_bind_unfold.
  destruct (wb_request_first_event cfg net (PStr cursor0) 0
              (tr ++ [select_max_last_change_date])%list)
    as (rest & data & Hreq).
  rewrite Hreq.
  destruct (process_page cfg net _ data _) as [tr1 o] eqn:Hpage.
  apply process_page_extends in Hpage as [evs ->].
  destruct o as [[w | st1] | e].
  - eexists (rest ++ evs)%list, _. rewrite <- !app_assoc. reflexivity.
  - destruct (incremental_loop cfg net fuel st1 _) as [tr2 r] eqn:Hloop.
    apply incremental_loop_extends in Hloop as [evs2 ->].
    eexists ((rest ++ evs) ++ evs2)%list, _. rewrite <- !app_assoc. reflexivity.
  - eexists (rest ++ evs)%list, _. rewrite <- !app_assoc. reflexivity.
Qed.

Lemma sync_start_floor :
  ∃ start cursor0,
    sync_start default_config
      (mkdt (moscow_utc_of_wall (wall_secs 2023 1 1 0 0 0)) 0 (Some utc))
    = Ok (start, cursor0).
Proof. eexists _, _. vm_compute. reflexivity. Qed.

Lemma get_db_max_on_empty_sink cfg net tr :
  net (tr ++ [select_max_last_change_date])%list = Response 200 (JsonList []) ->
  get_db_max_last_change_date_utc cfg net tr
  = ((tr ++ [select_max_last_change_date])%list,
     Ok (mkdt (moscow_utc_of_wall (wall_secs 2023 1 1 0 0 0)) 0 (Some utc))).
Proof.
  intros Hnet. unfold get_db_max_last_change_date_utc.
  fold select_max_last_change_date.
  rewrite M_bind_unfold. unfold http at 1.
  rewrite lift_bind_unfold, Hnet. cbn [raise_for_status Z.leb Z.ltb Z.compare
    Pos.compare Pos.compare_cont andb].
  unfold lift. rewrite history_floor_value. reflexivity.
Qed.

Lemma incremental_sync_first_fetch_witness :
  ∃ cursor0 rest r,
    incremental_sync default_config net_no_data 3 []
    = (([] ++ select_max_last_change_date :: WbGet (PStr cursor0) 0 :: rest)%list,
       r).
Proof.
  destruct sync_start_floor as (start & cursor0 & Hstart).
  exists cursor0.
  apply (incremental_sync_first_fetch default_config net_no_data 2 []
           (mkdt (moscow_utc_of_wall (wall_secs 2023 1 1 0 0 0)) 0 (Some utc))
           start cursor0); [| exact Hstart].
  apply get_db_max_on_empty_sink. reflexivity.
Defined.

(** ** The time helpers: zones, offsets and the host *)

Lemma parse_wb_dt_to_utc_is_utc cfg v dt :
  parse_wb_dt_to_utc cfg v = Ok dt -> dt_tzinfo dt = Some utc.
Proof.
  unfold parse_wb_dt_to_utc.
  destruct (isoparse v) as [d0 | e]; cbn [mbind result_bind]; [| discriminate].
  intros H. apply astimezone_inv in H as (_ & _ & Htz & _). exact Htz.
Qed.

Lemma astimezone_aware_local_irrelevant l1 l2 dt tz off :
  utcoffset dt = Some off -> astimezone l1 dt tz = astimezone l2 dt tz.
Proof. intros H. unfold astimezone. rewrite H. reflexivity. Qed.

(** X12: the result of [parse_wb_dt_to_utc] does not depend on the zone of
    the host: a text without offset is always read as Moscow time, never as
    the host's local time, and the value returned is always a UTC value. *)
Theorem parse_wb_dt_to_utc_host_independent cfg1 cfg2 v :
  parse_wb_dt_to_utc cfg1 v = parse_wb_dt_to_utc cfg2 v
  ∧ ∀ dt, parse_wb_dt_to_utc cfg1 v = Ok dt -> dt_tzinfo dt = Some utc.
Proof.
  split; [| intros dt; apply parse_wb_dt_to_utc_is_utc].
  unfold parse_wb_dt_to_utc.
  destruct (isoparse v) as [d0 | e]; cbn [mbind result_bind]; [| reflexivity].
  destruct d0 as [secs us [tz |]]; cbn [dt_tzinfo dt_secs dt_micro].
  - destruct tz as [o | z].
    + apply (astimezone_aware_local_irrelevant _ _ _ _ o). reflexivity.
    + eapply astimezone_aware_local_irrelevant. reflexivity.
  - eapply astimezone_aware_local_irrelevant. reflexivity.
Qed.

(** X13: a timestamp that carries its own offset is not re-read as Moscow
    time: [parse_wb_dt_to_utc] returns the very instant the text denotes,
    as a UTC value. *)
Theorem parse_wb_dt_to_utc_keeps_offset cfg s dt off :
  isoparse_str s = Ok dt ->
  utcoffset dt = Some off ->
  in_range (dt_secs dt - off) = true ->
  parse_wb_dt_to_utc cfg (PStr s)
  = Ok (mkdt (dt_secs dt - off) (dt_micro dt) (Some utc)).
Proof.
  intros Hp Hoff R. unfold parse_wb_dt_to_utc, isoparse. rewrite Hp.
  cbn [mbind result_bind].
  assert (Htz : ∃ tz, dt_tzinfo dt = Some tz).
  { unfold utcoffset in Hoff. destruct (dt_tzinfo dt); [eauto | discriminate]. }
  destruct Htz as [tz Htz]. rewrite Htz.
  rewrite (astimezone_aware _ _ utc off Hoff R);
    cbn [fromutc_offset utc]; rewrite Z.add_0_r; [reflexivity | exact R].
Qed.

Lemma parse_wb_dt_to_utc_keeps_offset_witness :
  ∃ dt,
    isoparse_str "2024-03-01T10:00:00+05:00" = Ok dt
    ∧ parse_wb_dt_to_utc default_config (PStr "2024-03-01T10:00:00+05:00")
      = Ok (mkdt (dt_secs dt - 18000) (dt_micro dt) (Some utc))
    ∧ isoformat (mkdt (dt_secs dt - 18000) (dt_micro dt) (Some utc))
      = "2024-03-01T05:00:00+00:00".
Proof.
  destruct (isoparse_str "2024-03-01T10:00:00+05:00") as [dt | e] eqn:Hp;
    [| vm_compute in Hp; discriminate Hp].
  exists dt. split; [reflexivity |]. split.
  - apply (parse_wb_dt_to_utc_keeps_offset default_config _ dt 18000 Hp);
      vm_compute in Hp; apply Ok_inj in Hp; subst dt; reflexivity.
  - vm_compute in Hp. apply Ok_inj in Hp. subst dt. vm_compute. reflexivity.
Defined.

(** The offset in force after the last transition of a table. *)
Fixpoint final_offset (cur : Z) (trans : list (Z * Z)) : Z :=
  match trans with
  | [] => cur
  | (_, off) :: rest => final_offset off rest
  end.

(** All wall-clock transition readings of a table are at or below [bound]. *)
Fixpoint wall_keys_le (bound cur : Z) (trans : list (Z * Z)) : bool :=
  match trans with
  | [] => true
  | (u, off) :: rest => (u + Z.max cur off <=? bound) && wall_keys_le bound off rest
  end.

Fixpoint utc_keys_le (bound : Z) (trans : list (Z * Z)) : bool :=
  match trans with
  | [] => true
  | (u, _) :: rest => (u <=? bound) && utc_keys_le bound rest
  end.

Lemma offset_at_wall_late bound cur l ts :
  wall_keys_le bound cur l = true -> bound <= ts ->
  offset_at_wall cur l ts = final_offset cur l.
Proof.
  revert cur. induction l as [| [u off] rest IH]; intros cur Hk Hts; [reflexivity |].
  cbn [wall_keys_le] in Hk. apply andb_true_iff in Hk as [Hu Hk].
  cbn [offset_at_wall final_offset].
  assert (E : (ts <? u + Z.max cur off) = false) by lia.
  rewrite E. apply IH; assumption.
Qed.

Lemma offset_at_utc_late bound cur l ts :
  utc_keys_le bound l = true -> bound <= ts ->
  offset_at_utc cur l ts = final_offset cur l.
Proof.
  revert cur. induction l as [| [u off] rest IH]; intros cur Hk Hts; [reflexivity |].
  cbn [utc_keys_le] in Hk. apply andb_true_iff in Hk as [Hu Hk].
  cbn [offset_at_utc final_offset].
  assert (E : (ts <? u) = false) by lia.
  rewrite E. apply IH; assumption.
Qed.

(** 2014-10-26T02:00:00, the wall-clock reading of the last clock change
    of Europe/Moscow, in seconds since 0001-01-01; and its UTC reading. *)
Definition MSK_FIXED_FROM_WALL : Z := 63549885600.
Definition MSK_FIXED_FROM_UTC : Z := 63549871200.

Lemma Moscow_wall_keys :
  wall_keys_le (MSK_FIXED_FROM_WALL - EPOCH_SECS) (tti_before Europe_Moscow)
    (transitions Europe_Moscow) = true.
Proof. vm_compute. reflexivity. Qed.

Lemma Moscow_utc_keys :
  utc_keys_le (MSK_FIXED_FROM_UTC - EPOCH_SECS) (transitions Europe_Moscow) = true.
Proof. vm_compute. reflexivity. Qed.

Lemma Moscow_final_offset :
  final_offset (tti_before Europe_Moscow) (transitions Europe_Moscow) = 10800.
Proof. vm_compute. reflexivity. Qed.

Lemma moscow_wall_offset_modern w :
  MSK_FIXED_FROM_WALL <= w ->
  offset_at_wall (tti_before Europe_Moscow) (transitions Europe_Moscow)
    (w - EPOCH_SECS) = 10800.
Proof.
  intros H. rewrite <- Moscow_final_offset.
  apply (offset_at_wall_late _ _ _ _ Moscow_wall_keys). lia.
Qed.

Lemma moscow_utc_offset_modern u :
  MSK_FIXED_FROM_UTC <= u ->
  offset_at_utc (tti_before Europe_Moscow) (transitions Europe_Moscow)
    (u - EPOCH_SECS) = 10800.
Proof.
  intros H. rewrite <- Moscow_final_offset.
  apply (offset_at_utc_late _ _ _ _ Moscow_utc_keys). lia.
Qed.

Lemma parse_wb_local_modern cfg y m d hh mm ss frac :
  valid_date y m d = true ->
  valid_time hh mm ss 0 = true ->
  all_digits frac = true ->
  MSK_FIXED_FROM_WALL <= wall_secs y m d hh mm ss ->
  parse_wb_dt_to_utc cfg (PStr (wb_local_string y m d hh mm ss frac))
  = Ok (mkdt (wall_secs y m d hh mm ss - 10800) (micro_of_digits frac) (Some utc)).
Proof.
  intros Hd Ht Hf Hmod.
  pose proof (wall_secs_bounds y m d hh mm ss Hd Ht) as Hw.
  set (w := wall_secs y m d hh mm ss) in *.
  apply (parse_wb_dt_to_utc_naive cfg _ w (micro_of_digits frac) 10800).
  - exact (isoparse_str_print _ _ _ _ _ _ _ Hd Ht Hf).
  - apply moscow_wall_offset_modern. exact Hmod.
  - unfold in_range, MAX_SECS, MSK_FIXED_FROM_WALL in *. lia.
Qed.

(** X14: from 2014-10-26T02:00:00 on, a well-formed local text without
    offset is read as UTC+3: the value returned is the wall-clock reading
    minus three hours, with the fraction of a second kept (at most six
    digits). *)
Theorem parse_wb_dt_to_utc_modern cfg y m d hh mm ss frac :
  valid_date y m d = true ->
  valid_time hh mm ss 0 = true ->
  all_digits frac = true ->
  MSK_FIXED_FROM_WALL <= wall_secs y m d hh mm ss ->
  parse_wb_dt_to_utc cfg (PStr (wb_local_string y m d hh mm ss frac))
  = Ok (mkdt (wall_secs y m d hh mm ss - 10800) (micro_of_digits frac) (Some utc)).
Proof. exact (parse_wb_local_modern cfg y m d hh mm ss frac). Qed.

Lemma parse_wb_dt_to_utc_modern_witness :
  parse_wb_dt_to_utc default_config
    (PStr (wb_local_string 2024 3 1 10 20 30 [1; 2; 3]))
  = Ok (mkdt (wall_secs 2024 3 1 10 20 30 - 10800) (micro_of_digits [1; 2; 3])
             (Some utc)).
Proof.
  apply parse_wb_dt_to_utc_modern; vm_compute; first [reflexivity | discriminate].
Defined.

(** ** Calendar: every ordinal is the ordinal of its date *)

Lemma days_before_year_succ y :
  1 <= y ->
  days_before_year (y + 1) = days_before_year y + 365 + (if is_leap y then 1 else 0).
Proof.
  intros Hy. unfold days_before_year, is_leap. cbv zeta.
  replace (y + 1 - 1) with y by lia.
  destruct (y mod 4 =? 0) eqn:E4, (y mod 100 =? 0) eqn:E100,
           (y mod 400 =? 0) eqn:E400; cbn [andb orb negb]; euclid.
Qed.

Lemma days_before_month_succ y m :
  1 <= m < 12 ->
  days_before_month y (m + 1) = days_before_month y m + days_in_month y m.
Proof.
  intros Hm. unfold days_before_month, days_before_month_common, days_in_month.
  destruct (is_leap y);
  assert (Hc : m = 1 ∨ m = 2 ∨ m = 3 ∨ m = 4 ∨ m = 5 ∨ m = 6 ∨ m = 7 ∨ m = 8
               ∨ m = 9 ∨ m = 10 ∨ m = 11) by lia;
  repeat (destruct Hc as [-> | Hc]; [reflexivity |]); subst m; reflexivity.
Qed.

Lemma days_in_month_bounds y m : 28 <= days_in_month y m <= 31.
Proof.
  unfold days_in_month.
  repeat match goal with |- context [if ?b then _ else _] => destruct b end; lia.
Qed.

Lemma ymd2ord_surjective n :
  1 <= n <= 3652059 ->
  ∃ y m d, valid_date y m d = true ∧ ymd2ord y m d = n.
Proof.
  intros Hn. replace n with ((n - 1) + 1) by lia.
  assert (H0 : 0 <= n - 1) by lia. assert (Hmax : n - 1 + 1 <= 3652059) by lia.
  revert Hmax. generalize dependent (n - 1). clear n Hn.
  intros k Hk. pattern k. apply natlike_ind; [| | exact Hk].
  - intros _. exists 1, 1, 1. split; reflexivity.
  - clear k Hk. intros k Hk IH Hmax.
    destruct IH as (y & m & d & Hv & Ho); [lia |].
    assert (Hv' := Hv). unfold valid_date in Hv'.
    pose proof (days_in_month_bounds y m) as Hdim.
    destruct (Z.eq_dec d (days_in_month y m)) as [Hlast | Hmid].
    + destruct (Z.eq_dec m 12) as [-> | Hm].
      * assert (Hy : y ≠ 9999).
        { intros ->. subst d.
          assert (E : ymd2ord 9999 12 (days_in_month 9999 12) = 3652059)
            by reflexivity.
          rewrite E in Ho. lia. }
        exists (y + 1), 1, 1. split.
        { unfold valid_date. pose proof (days_in_month_bounds (y + 1) 1). lia. }
        unfold ymd2ord in *. rewrite days_before_year_succ by lia.
        change (days_in_month y 12) with 31 in Hlast. subst d.
        unfold days_before_month in *.
        change (days_before_month_common 1) with 0.
        change (days_before_month_common 12) with 334 in Ho.
        change (2 <? 1) with false. change (2 <? 12) with true in Ho.
        cbn [andb] in *. destruct (is_leap y); lia.
      * exists y, (m + 1), 1. split.
        { unfold valid_date. pose proof (days_in_month_bounds y (m + 1)). lia. }
        unfold ymd2ord in *. rewrite days_before_month_succ by lia. lia.
    + exists y, m, (d + 1). split.
      { unfold valid_date. lia. }
      unfold ymd2ord in *. lia.
Qed.

Lemma ord2ymd_valid n :
  1 <= n <= 3652059 ->
  ∃ y m d, ord2ymd n = (y, m, d) ∧ valid_date y m d = true ∧ ymd2ord y m d = n.
Proof.
  intros Hn. destruct (ymd2ord_surjective n Hn) as (y & m & d & Hv & Ho).
  exists y, m, d. rewrite <- Ho at 1. rewrite (ord2ymd_ymd2ord _ _ _ Hv). auto.
Qed.

(** The civil fields of a value in range are a valid date and time, and
    they denote the value. *)
Lemma civil_valid secs us tz :
  in_range secs = true ->
  ∃ y m d hh mm ss,
    civil (mkdt secs us tz) = (y, m, d, hh, mm, ss)
    ∧ valid_date y m d = true ∧ valid_time hh mm ss 0 = true
    ∧ wall_secs y m d hh mm ss = secs.
Proof.
  intros R. unfold in_range, MAX_SECS in R.
  destruct (ord2ymd_valid (secs / 86400 + 1)) as (y & m & d & Hord & Hv & Ho);
    [euclid |].
  exists y, m, d, (secs mod 86400 / 3600), ((secs mod 86400 / 60) mod 60),
         (secs mod 86400 mod 60).
  unfold civil. cbn [dt_secs]. rewrite Hord.
  split; [reflexivity |]. split; [exact Hv |]. split.
  - unfold valid_time. euclid.
  - unfold wall_secs. rewrite Ho. euclid.
Qed.

Lemma strftime_wb_civil dt y m d hh mm ss :
  civil dt = (y, m, d, hh, mm, ss) ->
  strftime_wb dt = wb_local_string y m d hh mm ss [].
Proof.
  intros Hc. unfold strftime_wb. rewrite Hc.
  unfold wb_local_string, fraction_string. rewrite string_app_nil_r. reflexivity.
Qed.

(** ** Cursor texts denote the instants they were made from *)

Lemma MSK_FIXED_FROM_WALL_is :
  wall_secs 2014 10 26 2 0 0 = MSK_FIXED_FROM_WALL
  ∧ MSK_FIXED_FROM_UTC = MSK_FIXED_FROM_WALL - 14400.
Proof. split; reflexivity. Qed.

Lemma format_dt_for_wb_modern cfg u us :
  MSK_FIXED_FROM_UTC <= u -> u + 10800 < MAX_SECS ->
  format_dt_for_wb cfg (mkdt u us (Some utc))
  = Ok (strftime_wb (mkdt (u + 10800) us (Some MSK))).
Proof.
  intros Hlo Hhi.
  apply format_dt_for_wb_utc.
  - apply moscow_utc_offset_modern. exact Hlo.
  - unfold in_range, MAX_SECS, MSK_FIXED_FROM_UTC in *. lia.
  - unfold in_range, MAX_SECS, MSK_FIXED_FROM_UTC in *. lia.
Qed.

Lemma cursor_text_roundtrip cfg u us :
  MSK_FIXED_FROM_WALL <= u + 10800 -> u + 10800 < MAX_SECS ->
  ∃ text,
    format_dt_for_wb cfg (mkdt u us (Some utc)) = Ok text
    ∧ parse_wb_dt_to_utc cfg (PStr text) = Ok (mkdt u 0 (Some utc)).
Proof.
  intros Hlo Hhi.
  rewrite (format_dt_for_wb_modern cfg u us)
    by (unfold MSK_FIXED_FROM_WALL, MSK_FIXED_FROM_UTC in *; lia).
  eexists. split; [reflexivity |].
  destruct (civil_valid (u + 10800) us (Some MSK))
    as (y & m & d & hh & mm & ss & Hc & Hd & Ht & Hw).
  { unfold in_range, MAX_SECS, MSK_FIXED_FROM_WALL in *. lia. }
  rewrite (strftime_wb_civil _ _ _ _ _ _ _ Hc).
  rewrite (parse_wb_local_modern cfg y m d hh mm ss [] Hd Ht eq_refl).
  - rewrite Hw. change (micro_of_digits []) with 0.
    replace (u + 10800 - 10800) with u by lia. reflexivity.
  - rewrite Hw. exact Hlo.
Qed.

(** X15: the text that [format_dt_for_wb] makes of a UTC instant from
    2014-10-25T23:00:00Z on (the end of the last repeated hour of Moscow
    time) denotes that instant: [parse_wb_dt_to_utc] reads it back as the
    same instant, truncated to whole seconds. *)
Theorem format_then_parse cfg u us :
  MSK_FIXED_FROM_WALL <= u + 10800 -> u + 10800 < MAX_SECS ->
  ∃ text,
    format_dt_for_wb cfg (mkdt u us (Some utc)) = Ok text
    ∧ parse_wb_dt_to_utc cfg (PStr text) = Ok (mkdt u 0 (Some utc)).
Proof. exact (cursor_text_roundtrip cfg u us). Qed.

Lemma format_then_parse_witness :
  ∃ text,
    format_dt_for_wb default_config (mkdt 63844874430 123456 (Some utc)) = Ok text
    ∧ parse_wb_dt_to_utc default_config (PStr text)
      = Ok (mkdt 63844874430 0 (Some utc)).
Proof. apply format_then_parse; vm_compute; first [reflexivity | discriminate]. Defined.

(** X16: when the stall guard fires on a cursor of the fixed-offset era,
    the new cursor denotes exactly the instant of the old one plus one
    second (fractions of a second dropped). *)
Theorem stall_bump_is_one_second cfg s n dt c :
  80000 <= Z.of_nat n ->
  parse_wb_dt_to_utc cfg (PStr s) = Ok dt ->
  MSK_FIXED_FROM_WALL <= dt_secs dt + 10800 ->
  dt_secs dt + 1 + 10800 < MAX_SECS ->
  next_cursor cfg (PStr s) (PStr s) n = Ok c ->
  parse_wb_dt_to_utc cfg c = Ok (mkdt (dt_secs dt + 1) 0 (Some utc)).
Proof.
  intros Hn Hp Hlo Hhi Hc.
  assert (Heq : py_eq (PStr s) (PStr s) = true) by (apply py_eq_text; reflexivity).
  destruct (next_cursor_stalled _ _ _ _ _ Heq Hn Hc)
    as (dt' & bumped & text & Hp' & Hb & Hf & ->).
  rewrite Hp in Hp'. apply Ok_inj in Hp'. subst dt'.
  apply datetime_add_inv in Hb as [-> _].
  rewrite (parse_wb_dt_to_utc_is_utc _ _ _ Hp) in Hf.
  destruct (cursor_text_roundtrip cfg (dt_secs dt + 1) (dt_micro dt))
    as (text' & Hf' & Hparse); [lia | lia |].
  rewrite Hf in Hf'. apply Ok_inj in Hf'. subst text'. exact Hparse.
Qed.

Lemma stall_bump_is_one_second_witness :
  ∃ dt c,
    parse_wb_dt_to_utc default_config (PStr "2024-03-01T12:00:00") = Ok dt
    ∧ next_cursor default_config (PStr "2024-03-01T12:00:00")
        (PStr "2024-03-01T12:00:00") (Z.to_nat 80000) = Ok c
    ∧ parse_wb_dt_to_utc default_config c = Ok (mkdt (dt_secs dt + 1) 0 (Some utc)).
Proof.
  exists (mkdt 63844880400 0 (Some utc)), (PStr "2024-03-01T12:00:01").
  assert (Hp : parse_wb_dt_to_utc default_config (PStr "2024-03-01T12:00:00")
               = Ok (mkdt 63844880400 0 (Some utc))) by (vm_compute; reflexivity).
  assert (Hc : next_cursor default_config (PStr "2024-03-01T12:00:00")
                 (PStr "2024-03-01T12:00:00") (Z.to_nat 80000)
               = Ok (PStr "2024-03-01T12:00:01")) by (vm_compute; reflexivity).
  split; [exact Hp |]. split; [exact Hc |].
  apply (stall_bump_is_one_second default_config "2024-03-01T12:00:00"
           (Z.to_nat 80000) _ _ ltac:(vm_compute; discriminate) Hp); 
    [vm_compute; discriminate | vm_compute; reflexivity | exact Hc].
Defined.

(** ** The window of a reload day *)

Definition date_string (y m d : Z) : string :=
  zfill 4 y +:+ "-" +:+ zfill 2 m +:+ "-" +:+ zfill 2 d.

Lemma fromisoformat_date_print y m d :
  valid_date y m d = true -> fromisoformat_date (date_string y m d) = Ok (y, m, d).
Proof.
  intros Hd. assert (Hd' := Hd). unfold valid_date in Hd'.
  pose proof (days_in_month_bounds y m).
  unfold fromisoformat_date, date_string.
  rewrite <- (string_app_nil_r (zfill 2 d)).
  rewrite parse_isodate_print by lia.
  unfold datetime_new. rewrite Hd. reflexivity.
Qed.

Lemma datetime_new_valid y m d hh mm ss us tz :
  valid_date y m d = true -> valid_time hh mm ss us = true ->
  datetime_new y m d hh mm ss us tz = Ok (mkdt (wall_secs y m d hh mm ss) us tz).
Proof. intros Hd Ht. unfold datetime_new. rewrite Hd, Ht. reflexivity. Qed.

Lemma day_window_modern local w :
  MSK_FIXED_FROM_WALL <= w -> w + 86400 < MAX_SECS ->
  (end_msk ← datetime_add (mkdt w 0 (Some MSK)) 86400;
   su ← astimezone local (mkdt w 0 (Some MSK)) utc;
   eu ← astimezone local end_msk utc;
   Ok (su, eu))
  = Ok (mkdt (w - 10800) 0 (Some utc), mkdt (w + 86400 - 10800) 0 (Some utc)).
Proof.
  intros Hlo Hhi.
  assert (R1 : in_range (w + 86400) = true)
    by (unfold in_range, MAX_SECS, MSK_FIXED_FROM_WALL in *; lia).
  unfold datetime_add. cbn [dt_secs dt_micro dt_tzinfo]. rewrite R1.
  cbn [mbind result_bind].
  rewrite (astimezone_aware local (mkdt w 0 (Some MSK)) utc 10800);
    cbn [dt_secs dt_micro fromutc_offset utc utcoffset dt_tzinfo MSK].
  - rewrite (astimezone_aware local (mkdt (w + 86400) 0 (Some MSK)) utc 10800);
      cbn [dt_secs dt_micro fromutc_offset utc utcoffset dt_tzinfo MSK].
    + rewrite !Z.add_0_r. reflexivity.
    + rewrite moscow_wall_offset_modern by lia. reflexivity.
    + unfold in_range, MAX_SECS, MSK_FIXED_FROM_WALL in *. lia.
    + unfold in_range, MAX_SECS, MSK_FIXED_FROM_WALL in *. lia.
  - rewrite moscow_wall_offset_modern by lia. reflexivity.
  - unfold in_range, MAX_SECS, MSK_FIXED_FROM_WALL in *. lia.
  - unfold in_range, MAX_SECS, MSK_FIXED_FROM_WALL in *. lia.
Qed.

(** X17: for a day [YYYY-MM-DD] from 2014-10-27 on, the window that the
    range delete covers runs from that day's 00:00 Moscow time, which is
    21:00 UTC of the day before, to exactly 24 hours later. *)
Theorem msk_day_window_modern cfg y m d :
  valid_date y m d = true ->
  MSK_FIXED_FROM_WALL <= wall_secs y m d 0 0 0 ->
  wall_secs y m d 0 0 0 + 86400 < MAX_SECS ->
  msk_day_window cfg (date_string y m d)
  = Ok (mkdt (wall_secs y m d 0 0 0 - 10800) 0 (Some utc),
        mkdt (wall_secs y m d 0 0 0 - 10800 + 86400) 0 (Some utc)).
Proof.
  intros Hd Hlo Hhi. unfold msk_day_window.
  rewrite (fromisoformat_date_print _ _ _ Hd). cbn [mbind result_bind].
  rewrite (datetime_new_valid y m d 0 0 0 0 (Some MSK) Hd eq_refl).
  cbn [mbind result_bind].
  rewrite (timedelta_small 86400) by lia.
  generalize dependent (wall_secs y m d 0 0 0). intros w Hlo Hhi.
  cbn [mbind result_bind].
  rewrite (day_window_modern _ w Hlo Hhi).
  replace (w - 10800 + 86400) with (w + 86400 - 10800) by lia. reflexivity.
Qed.

Lemma msk_day_window_modern_witness :
  msk_day_window default_config (date_string 2024 3 1)
  = Ok (mkdt (wall_secs 2024 3 1 0 0 0 - 10800) 0 (Some utc),
        mkdt (wall_secs 2024 3 1 0 0 0 - 10800 + 86400) 0 (Some utc)).
Proof.
  apply msk_day_window_modern; vm_compute; first [reflexivity | discriminate].
Defined.

(** ** [transform_wb_orders]: the shape of a sink row *)

(** The dictionary that the loop body builds. *)
Definition sink_row (date_utc lcd_utc : string) (cancel_utc : pyval) (o : record)
  : record :=
  list_to_map [
    ("date", PStr date_utc);
    ("last_change_date", PStr lcd_utc);
    ("warehouse_name", dict_get o "warehouseName");
    ("warehouse_type", dict_get o "warehouseType");
    ("country_name", dict_get o "countryName");
    ("oblast_okrug_name", dict_get o "oblastOkrugName");
    ("region_name", dict_get o "regionName");
    ("supplier_article", dict_get o "supplierArticle");
    ("nm_id", dict_get o "nmId");
    ("barcode", dict_get o "barcode");
    ("category", dict_get o "category");
    ("subject", dict_get o "subject");
    ("brand", dict_get o "brand");
    ("tech_size", dict_get o "techSize");
    ("income_id", dict_get o "incomeID");
    ("is_supply", dict_get o "isSupply");
    ("is_realization", dict_get o "isRealization");
    ("total_price", dict_get o "totalPrice");
    ("discount_percent", dict_get o "discountPercent");
    ("spp", dict_get o "spp");
    ("finished_price", dict_get o "finishedPrice");
    ("price_with_disc", dict_get o "priceWithDisc");
    ("is_cancel", dict_get o "isCancel");
    ("cancel_date", cancel_utc);
    ("sticker", dict_get o "sticker");
    ("g_number", dict_get o "gNumber");
    ("srid", dict_get o "srid")
  ].

(** The columns copied as they are, with the upstream field of each. *)
Definition COPIED_FIELDS : list (string * string) := [
  ("warehouse_name", "warehouseName"); ("warehouse_type", "warehouseType");
  ("country_name", "countryName"); ("oblast_okrug_name", "oblastOkrugName");
  ("region_name", "regionName"); ("supplier_article", "supplierArticle");
  ("nm_id", "nmId"); ("barcode", "barcode"); ("category", "category");
  ("subject", "subject"); ("brand", "brand"); ("tech_size", "techSize");
  ("income_id", "incomeID"); ("is_supply", "isSupply");
  ("is_realization", "isRealization"); ("total_price", "totalPrice");
  ("discount_percent", "discountPercent"); ("spp", "spp");
  ("finished_price", "finishedPrice"); ("price_with_disc", "priceWithDisc");
  ("is_cancel", "isCancel"); ("sticker", "sticker"); ("g_number", "gNumber");
  ("srid", "srid")
].

(** The columns of the sink table that a row sets. *)
Definition SINK_COLUMNS : list string :=
  "date" :: "last_change_date" :: "cancel_date" :: COPIED_FIELDS.*1.

Lemma transform_row_inv cfg o row :
  transform_row cfg o = Ok row ->
  ∃ dv ddt lv ldt cancel_utc,
    o !! "date" = Some dv ∧ parse_wb_dt_to_utc cfg dv = Ok ddt
    ∧ o !! "lastChangeDate" = Some lv ∧ parse_wb_dt_to_utc cfg lv = Ok ldt
    ∧ (if truthy (dict_get o "cancelDate")
          && negb (py_eq (dict_get o "cancelDate") (PStr SENTINEL_CANCEL_DATE))
       then ∃ cdt, parse_wb_dt_to_utc cfg (dict_get o "cancelDate") = Ok cdt
                   ∧ cancel_utc = PStr (isoformat cdt)
       else cancel_utc = PNone)
    ∧ row = sink_row (isoformat ddt) (isoformat ldt) cancel_utc o.
Proof.
  unfold transform_row, dict_item. cbv zeta.
  destruct (o !! "date") as [dv |]; cbn [or_raise mbind result_bind];
    [| discriminate].
  destruct (parse_wb_dt_to_utc cfg dv) as [ddt | e] eqn:Hd;
    cbn [fmap result_fmap mbind result_bind]; [| discriminate].
  destruct (o !! "lastChangeDate") as [lv |]; cbn [or_raise mbind result_bind];
    [| discriminate].
  destruct (parse_wb_dt_to_utc cfg lv) as [ldt | e] eqn:Hl;
    cbn [fmap result_fmap mbind result_bind]; [| discriminate].
  destruct (truthy (dict_get o "cancelDate")
            && negb (py_eq (dict_get o "cancelDate") (PStr SENTINEL_CANCEL_DATE)))
    eqn:Hcond.
  - destruct (parse_wb_dt_to_utc cfg (dict_get o "cancelDate")) as [cdt | e] eqn:Hc;
      cbn [fmap result_fmap mbind result_bind]; [| discriminate].
    intros H. apply Ok_inj in H. subst row.
    exists dv, ddt, lv, ldt, (PStr (isoformat cdt)).
    repeat (split; [first [reflexivity | assumption | eauto] |]).
    unfold sink_row. reflexivity.
  - cbn [mbind result_bind]. intros H. apply Ok_inj in H. subst row.
    exists dv, ddt, lv, ldt, PNone.
    repeat (split; [first [reflexivity | assumption] |]).
    unfold sink_row. reflexivity.
Qed.

Ltac lookup_sink_row :=
  unfold sink_row; rewrite !list_to_map_cons;
  repeat (rewrite lookup_insert_ne by discriminate);
  apply lookup_insert_eq.

Lemma sink_row_copied d l c o sink wb :
  (sink, wb) ∈ COPIED_FIELDS -> sink_row d l c o !! sink = Some (dict_get o wb).
Proof.
  unfold COPIED_FIELDS. intros H.
  unfold sink_row. rewrite !list_to_map_cons.
  repeat (apply elem_of_cons in H as [H | H];
          [apply pair_equal_spec in H as [-> ->];
           repeat (rewrite lookup_insert_ne by discriminate);
           apply lookup_insert_eq |]).
  apply elem_of_nil in H. contradiction.
Qed.

(** X18: in a sink row every copied column holds what [o.get] gives for
    its upstream field: the value as it came, and [None] when the record
    has no such field. *)
Theorem transform_row_copies_fields cfg o row sink wb :
  transform_row cfg o = Ok row ->
  (sink, wb) ∈ COPIED_FIELDS ->
  row !! sink = Some (dict_get o wb)
  ∧ (o !! wb = None -> row !! sink = Some PNone).
Proof.
  intros Hrow Hin.
  destruct (transform_row_inv _ _ _ Hrow)
    as (dv & ddt & lv & ldt & c & _ & _ & _ & _ & _ & ->).
  pose proof (sink_row_copied (isoformat ddt) (isoformat ldt) c o sink wb Hin) as H.
  split; [exact H |]. intros Hnone. rewrite H. unfold dict_get. rewrite Hnone.
  reflexivity.
Qed.

Lemma sample_order_b_transforms :
  ∃ row, transform_row default_config sample_order_b = Ok row.
Proof. apply transform_row_ok_iff. vm_compute. reflexivity. Qed.

Lemma transform_row_copies_fields_witness :
  ∃ row,
    transform_row default_config sample_order_b = Ok row
    ∧ row !! "total_price" = Some (dict_get sample_order_b "totalPrice")
    ∧ (sample_order_b !! "totalPrice" = None -> row !! "total_price" = Some PNone).
Proof.
  destruct sample_order_b_transforms as [row Hrow].
  exists row. split; [exact Hrow |].
  apply (transform_row_copies_fields default_config sample_order_b row
           "total_price" "totalPrice" Hrow).
  unfold COPIED_FIELDS. repeat (first [left | right]).
Defined.

Lemma isoformat_utc dt :
  dt_tzinfo dt = Some utc ->
  isoformat dt
  = strftime_wb dt
    +:+ (if dt_micro dt =? 0 then "" else "." +:+ zfill 6 (dt_micro dt))
    +:+ "+00:00".
Proof. intros H. unfold isoformat, utcoffset. rewrite H. reflexivity. Qed.

(** X19: the [date] and [last_change_date] of a sink row are the ISO texts
    of the upstream timestamps converted to UTC; each ends with the offset
    [+00:00]. *)
Theorem transform_row_timestamps_utc cfg o row :
  transform_row cfg o = Ok row ->
  ∃ dv ddt lv ldt,
    o !! "date" = Some dv ∧ parse_wb_dt_to_utc cfg dv = Ok ddt
    ∧ o !! "lastChangeDate" = Some lv ∧ parse_wb_dt_to_utc cfg lv = Ok ldt
    ∧ row !! "date"
      = Some (PStr (strftime_wb ddt
                    +:+ (if dt_micro ddt =? 0 then ""
                         else "." +:+ zfill 6 (dt_micro ddt))
                    +:+ "+00:00"))
    ∧ row !! "last_change_date"
      = Some (PStr (strftime_wb ldt
                    +:+ (if dt_micro ldt =? 0 then ""
                         else "." +:+ zfill 6 (dt_micro ldt))
                    +:+ "+00:00")).
Proof.
  intros Hrow.
  destruct (transform_row_inv _ _ _ Hrow)
    as (dv & ddt & lv & ldt & c & Hd & Hpd & Hl & Hpl & _ & ->).
  exists dv, ddt, lv, ldt. repeat (split; [assumption |]).
  rewrite <- (isoformat_utc ddt (parse_wb_dt_to_utc_is_utc _ _ _ Hpd)).
  rewrite <- (isoformat_utc ldt (parse_wb_dt_to_utc_is_utc _ _ _ Hpl)).
  split; lookup_sink_row.
Qed.

Lemma transform_row_timestamps_utc_witness :
  ∃ row dv ddt lv ldt,
    transform_row default_config sample_order_b = Ok row
    ∧ sample_order_b !! "date" = Some dv
    ∧ parse_wb_dt_to_utc default_config dv = Ok ddt
    ∧ sample_order_b !! "lastChangeDate" = Some lv
    ∧ parse_wb_dt_to_utc default_config lv = Ok ldt
    ∧ row !! "date"
      = Some (PStr (strftime_wb ddt
                    +:+ (if dt_micro ddt =? 0 then ""
                         else "." +:+ zfill 6 (dt_micro ddt))
                    +:+ "+00:00"))
    ∧ row !! "last_change_date"
      = Some (PStr (strftime_wb ldt
                    +:+ (if dt_micro ldt =? 0 then ""
                         else "." +:+ zfill 6 (dt_micro ldt))
                    +:+ "+00:00")).
Proof.
  destruct sample_order_b_transforms as [row Hrow].
  destruct (transform_row_timestamps_utc _ _ _ Hrow)
    as (dv & ddt & lv & ldt & H).
  exists row, dv, ddt, lv, ldt. split; [exact Hrow | exact H].
Defined.

(** X20: the [cancel_date] of a sink row is [None] when the record has no
    [cancelDate] or an empty one, and for a [cancelDate] text that is
    neither empty nor the sentinel it is the ISO text of that timestamp
    converted to UTC. *)
Theorem transform_row_cancel_date cfg o row :
  transform_row cfg o = Ok row ->
  (truthy (dict_get o "cancelDate") = false -> row !! "cancel_date" = Some PNone)
  ∧ (∀ s, o !! "cancelDate" = Some (PStr s) ->
          s ≠ "" -> s ≠ SENTINEL_CANCEL_DATE ->
          ∃ cdt, parse_wb_dt_to_utc cfg (PStr s) = Ok cdt
                 ∧ row !! "cancel_date" = Some (PStr (isoformat cdt))).
Proof.
  intros Hrow.
  destruct (transform_row_inv _ _ _ Hrow)
    as (dv & ddt & lv & ldt & c & _ & _ & _ & _ & Hc & ->).
  split.
  - intros Hf. rewrite Hf in Hc. cbn [andb] in Hc. subst c. lookup_sink_row.
  - intros s Hs Hne Hsent.
    assert (Hget : dict_get o "cancelDate" = PStr s)
      by (unfold dict_get; rewrite Hs; reflexivity).
    rewrite Hget in Hc. rewrite (truthy_text _ Hne) in Hc.
    assert (Hneq : py_eq (PStr s) (PStr SENTINEL_CANCEL_DATE) = false).
    { destruct (py_eq (PStr s) (PStr SENTINEL_CANCEL_DATE)) eqn:E; [| reflexivity].
      apply py_eq_text in E. injection E as ->. contradiction. }
    rewrite Hneq in Hc. cbn [andb negb] in Hc.
    destruct Hc as (cdt & Hp & ->). exists cdt. split; [exact Hp |].
    lookup_sink_row.
Qed.

Lemma transform_row_cancel_date_witness :
  ∃ row,
    transform_row default_config sample_order_b = Ok row
    ∧ (truthy (dict_get sample_order_b "cancelDate") = false ->
       row !! "cancel_date" = Some PNone)
    ∧ (∀ s, sample_order_b !! "cancelDate" = Some (PStr s) ->
            s ≠ "" -> s ≠ SENTINEL_CANCEL_DATE ->
            ∃ cdt, parse_wb_dt_to_utc default_config (PStr s) = Ok cdt
                   ∧ row !! "cancel_date" = Some (PStr (isoformat cdt))).
Proof.
  destruct sample_order_b_transforms as [row Hrow].
  exists row. split; [exact Hrow |].
  exact (transform_row_cancel_date _ _ _ Hrow).
Defined.

Lemma sink_row_columns d l c o k :
  is_Some (sink_row d l c o !! k) ↔ k ∈ SINK_COLUMNS.
Proof.
  unfold sink_row, SINK_COLUMNS, COPIED_FIELDS. cbn [fmap list_fmap fst].
  rewrite !list_to_map_cons, list_to_map_nil.
  repeat rewrite lookup_insert_is_Some'. rewrite lookup_empty.
  repeat rewrite elem_of_cons. rewrite elem_of_nil.
  split.
  - intros H. repeat (destruct H as [<- | H]; [tauto |]).
    destruct H as [? H]. discriminate H.
  - intros H. repeat (destruct H as [-> | H]; [tauto |]). contradiction.
Qed.

(** X21: every sink row sets exactly the same 27 columns, whatever fields
    the upstream record has: the rows of a batch all have one key set. *)
Theorem transform_row_columns cfg o row k :
  transform_row cfg o = Ok row ->
  is_Some (row !! k) ↔ k ∈ SINK_COLUMNS.
Proof.
  intros Hrow.
  destruct (transform_row_inv _ _ _ Hrow)
    as (dv & ddt & lv & ldt & c & _ & _ & _ & _ & _ & ->).
  apply sink_row_columns.
Qed.

Lemma transform_row_columns_witness :
  ∃ row,
    transform_row default_config sample_order_b = Ok row
    ∧ (is_Some (row !! "warehouse_name") ↔ "warehouse_name" ∈ SINK_COLUMNS).
Proof.
  destruct sample_order_b_transforms as [row Hrow].
  exists row. split; [exact Hrow |].
  exact (transform_row_columns _ _ _ "warehouse_name" Hrow).
Defined.
